(** * A typing-practice application: scoring, live grading, lesson
      progression and the progress log

    A shallow embedding of [main.py]: the scoring function
    [calculate_wpm_and_accuracy], the two persistence helpers [load_lessons]
    and [save_progress], and the handlers of the [TypingApp] class that carry
    the application's state.

    Conventions of the embedding.
    - A Python [str] is a list of code points; [len] is a Python integer.
    - A Python [int] is a [Z]; a Python [float] is an IEEE-754 binary64 value
      ([spec_float] of the Standard Library), and every float operation is the
      exact rational result rounded to nearest, ties to even.
    - Code that can raise returns a [result]; [try ... except E] is [try_except].
    - The environment ([time.time()], [datetime.now().isoformat()], the outcome
      of opening and parsing a JSON file) is passed in explicitly. *)

From Stdlib Require Import ZArith NArith QArith Qabs Qpower Lia Lqa List Bool String Ascii.
From Stdlib Require Import SpecFloat.
Import ListNotations.

Open Scope Z_scope.

(* ================================================================== *)
(** * Part I. Definitions                                              *)
(* ================================================================== *)

(** ** IEEE-754 binary64 arithmetic, as CPython's [float] uses it *)

Module Binary64.

Definition float := spec_float.

(** The integer nearest to [q], ties to the even one. *)
Definition round_half_even (q : Q) : Z :=
  let n := Qnum q in
  let d := Zpos (Qden q) in
  let f := n / d in
  match (2 * (n mod d) ?= d) with
  | Lt => f
  | Gt => f + 1
  | Eq => if Z.even f then f else f + 1
  end.

(** [ilog2 q] is the integer [k] with [2^k <= q < 2^(k+1)], for [0 < q]. *)
Definition ilog2 (q : Q) : Z :=
  let k := Z.log2 (Qnum q) - Z.log2 (Zpos (Qden q)) in
  if Qle_bool (2 ^ k) q then k else k - 1.

(** The binary64 value nearest to the magnitude [a] (with [0 <= a]), carrying
    the sign [s]: 53 significant bits, least exponent [-1074], ties to even,
    infinity from [2^1024] on. *)
Definition round_nearest (s : bool) (a : Q) : float :=
  if Qle_bool a 0 then S754_zero s
  else
    let e := Z.max (ilog2 a - 52) (-1074) in
    let m := round_half_even (a / 2 ^ e) in
    let '(m, e) := if m =? 2 ^ 53 then (2 ^ 52, e + 1) else (m, e) in
    match m with
    | Zpos p => if e <=? 971 then S754_finite s p e else S754_infinity s
    | _ => S754_zero s
    end.

(** The magnitude of a finite float, as a rational. *)
Definition magnitude (x : float) : Q :=
  match x with
  | S754_finite _ m e => inject_Z (Zpos m) * 2 ^ e
  | _ => 0
  end.

Definition sign (x : float) : bool :=
  match x with
  | S754_zero s | S754_infinity s | S754_finite s _ _ => s
  | S754_nan => false
  end.

(** The exact value of a finite float. *)
Definition F2Q (x : float) : Q :=
  if sign x then (- magnitude x)%Q else magnitude x.

Definition is_zero (x : float) : bool :=
  match x with S754_zero _ => true | _ => false end.

(** A decimal literal of the source ([60.0], [66.67]) denotes the float
    nearest to it. *)
Definition lit (q : Q) : float :=
  round_nearest (Qle_bool q 0 && negb (Qeq_bool q 0)) (Qabs q).

(** [float(z)] for an integer inside the double range.  CPython raises
    [OverflowError] for an integer of magnitude [2^1024] or more; the integers
    converted in this program are lengths and word counts of strings, which
    are below [2^63]. *)
Definition of_Z (z : Z) : float :=
  round_nearest (z <? 0) (inject_Z (Z.abs z)).

(** [x - y]. *)
Definition sub (x y : float) : float :=
  match x, y with
  | S754_nan, _ | _, S754_nan => S754_nan
  | S754_infinity sx, S754_infinity sy =>
      if Bool.eqb sx sy then S754_nan else x
  | S754_infinity _, _ => x
  | _, S754_infinity sy => S754_infinity (negb sy)
  | S754_zero sx, S754_zero sy => S754_zero (sx && negb sy)
  | _, _ =>
      let d := (F2Q x - F2Q y)%Q in
      if Qeq_bool d 0 then S754_zero false
      else round_nearest (Qle_bool d 0) (Qabs d)
  end.

(** [x * y]. *)
Definition mul (x y : float) : float :=
  match x, y with
  | S754_nan, _ | _, S754_nan => S754_nan
  | S754_infinity _, S754_zero _ | S754_zero _, S754_infinity _ => S754_nan
  | S754_infinity sx, _ => S754_infinity (xorb sx (sign y))
  | _, S754_infinity sy => S754_infinity (xorb (sign x) sy)
  | S754_zero sx, _ => S754_zero (xorb sx (sign y))
  | _, S754_zero sy => S754_zero (xorb (sign x) sy)
  | S754_finite sx _ _, S754_finite sy _ _ =>
      round_nearest (xorb sx sy) (magnitude x * magnitude y)
  end.

(** [x / y] for [y] other than zero (Python raises on a zero divisor before
    the division is made; see [Py.float_truediv]). *)
Definition div (x y : float) : float :=
  match x, y with
  | S754_nan, _ | _, S754_nan => S754_nan
  | S754_infinity _, S754_infinity _ => S754_nan
  | S754_infinity sx, _ => S754_infinity (xorb sx (sign y))
  | _, S754_infinity sy => S754_zero (xorb (sign x) sy)
  | S754_zero _, S754_zero _ => S754_nan
  | S754_zero sx, _ => S754_zero (xorb sx (sign y))
  | S754_finite sx _ _, S754_zero sy => S754_infinity (xorb sx sy)
  | S754_finite sx _ _, S754_finite sy _ _ =>
      round_nearest (xorb sx sy) (magnitude x / magnitude y)
  end.

(** The correctly rounded quotient of two integers, [b] other than zero:
    what [a / b] is on Python integers. *)
Definition div_Z (a b : Z) : float :=
  round_nearest (xorb (a <? 0) (b <? 0))
                (inject_Z (Z.abs a) / inject_Z (Z.abs b)).

(** [x > 0]. *)
Definition gt_zero (x : float) : bool :=
  match x with
  | S754_finite false _ _ | S754_infinity false => true
  | _ => false
  end.

(** [round(x, 2)] on a float: the value is rounded to two decimals on its
    exact binary expansion, ties to even, and the decimal is read back as
    the nearest float.  Infinities and NaN round to themselves. *)
Definition round_2 (x : float) : float :=
  match x with
  | S754_finite s _ _ =>
      round_nearest s (inject_Z (round_half_even (magnitude x * 100)) / 100)
  | _ => x
  end.

(** The unit roundoff [2^-53]: rounding to nearest moves a value in the normal
    range by at most this fraction of itself. *)
Definition unit_roundoff : Q := 1 # 9007199254740992.

(** Floats on which the operations above are compared with those of the
    Standard Library's [SpecFloat]: zeros, infinities, NaN, ordinary values,
    the largest floats and subnormal ones. *)
Definition sample_floats : list float :=
  [ S754_zero false; S754_zero true; S754_infinity false; S754_infinity true;
    S754_nan;
    lit 60; lit (1 # 10); lit (- (1 # 3)); lit (6667 # 100);
    of_Z 19999; of_Z (-20000); of_Z (2 ^ 1024 - 2 ^ 971);
    S754_finite true 3 (-1074);
    lit (17000000000001 # 10000) ].

Definition sample_pairs : list (float * float) :=
  list_prod sample_floats sample_floats.

End Binary64.

(** ** Python values, exceptions and strings *)

Module Py.

Inductive exn :=
| FileNotFoundError
| JSONDecodeError
| KeyError
| IndexError
| ZeroDivisionError
| TypeError.

Inductive result (A : Type) :=
| Ok (a : A)
| Raise (e : exn).
Arguments Ok {A} a.
Arguments Raise {A} e.

Definition bind {A B} (r : result A) (k : A -> result B) : result B :=
  match r with
  | Ok a => k a
  | Raise e => Raise e
  end.

(** [try: body  except E: handler] *)
Definition try_except {A} (body : result A) (caught : exn -> bool)
           (handler : result A) : result A :=
  match body with
  | Ok a => Ok a
  | Raise e => if caught e then handler else Raise e
  end.

Definition is_FileNotFoundError (e : exn) : bool :=
  match e with FileNotFoundError => true | _ => false end.

(** A number: an [int] or a [float]. *)
Inductive num :=
| PInt (z : Z)
| PFloat (f : Binary64.float).

(** [round(x, 2)]: an [int] is returned as it is. *)
Definition round (x : num) : num :=
  match x with
  | PInt z => PInt z
  | PFloat f => PFloat (Binary64.round_2 f)
  end.

(** [x / y] on floats. *)
Definition float_truediv (x y : Binary64.float) : result Binary64.float :=
  if Binary64.is_zero y then Raise ZeroDivisionError
  else Ok (Binary64.div x y).

(** [a / b] on integers. *)
Definition int_truediv (a b : Z) : result Binary64.float :=
  if b =? 0 then Raise ZeroDivisionError else Ok (Binary64.div_Z a b).

(** Strings: lists of code points. *)
Definition char := N.
Definition str := list char.

Definition str_of (s : string) : str :=
  List.map N_of_ascii (list_ascii_of_string s).

Definition len {A} (l : list A) : Z := Z.of_nat (List.length l).

(** [s[i]] for [0 <= i]. *)
Definition getitem {A} (l : list A) (i : nat) : result A :=
  match nth_error l i with
  | Some a => Ok a
  | None => Raise IndexError
  end.

(** [str.isspace] on one code point. *)
Definition isspace (c : char) : bool :=
  ((9 <=? c) && (c <=? 13) || (28 <=? c) && (c <=? 32)
   || (c =? 133) || (c =? 160) || (c =? 5760)
   || (8192 <=? c) && (c <=? 8202)
   || (c =? 8232) || (c =? 8233) || (c =? 8239) || (c =? 8287)
   || (c =? 12288))%N.

(** [s.split()]: the maximal runs of non-whitespace, in order.  [tok] holds
    the run being read, last character first. *)
Fixpoint split_ws (tok : str) (s : str) : list str :=
  match s with
  | [] => match tok with [] => [] | _ => [rev tok] end
  | c :: rest =>
      if isspace c then
        match tok with
        | [] => split_ws [] rest
        | _ => rev tok :: split_ws [] rest
        end
      else split_ws (c :: tok) rest
  end.

Definition split (s : str) : list str := split_ws [] s.

Fixpoint lstrip_by (p : char -> bool) (s : str) : str :=
  match s with
  | [] => []
  | c :: rest => if p c then lstrip_by p rest else s
  end.

Definition rstrip_by (p : char -> bool) (s : str) : str :=
  rev (lstrip_by p (rev s)).

(** [s.strip()] *)
Definition strip (s : str) : str := rstrip_by isspace (lstrip_by isspace s).

Definition newline : char := 10%N.

(** [s.rstrip("\n")] *)
Definition rstrip_newlines (s : str) : str :=
  rstrip_by (fun c => N.eqb c newline) s.

End Py.

Import Py.

Declare Scope py_scope.
Notation "x <- e ;; k" := (bind e (fun x => k))
  (at level 61, e at next level, right associativity) : py_scope.
Notation "' p <- e ;; k" := (bind e (fun x => let p := x in k))
  (at level 61, p pattern, e at next level, right associativity) : py_scope.
Open Scope py_scope.

(** ** The data of the program *)

(** An entry of [lessons.json]: a dict with the keys [id], [title], [content]. *)
Record Lesson := {
  lesson_id : Z;
  title : str;
  content : str
}.

(** The dict [on_submit] builds and [save_progress] stores. *)
Record AttemptRecord := {
  user : str;
  lessonId : Z;
  lessonTitle : str;
  timestamp : str;
  wpm : num;
  accuracy : num
}.

(** What opening a JSON file and reading it with [json.load] gives: the file
    is not there ([open] raises [FileNotFoundError]), its content is not JSON
    ([json.load] raises [JSONDecodeError]), or it parses to a document. *)
Inductive file (A : Type) :=
| Absent
| Malformed
| Parsed (doc : A).
Arguments Absent {A}.
Arguments Malformed {A}.
Arguments Parsed {A} doc.

Definition read_json {A} (f : file A) : result A :=
  match f with
  | Absent => Raise FileNotFoundError
  | Malformed => Raise JSONDecodeError
  | Parsed doc => Ok doc
  end.

(** The top-level object of [lessons.json]; the key [lessons] may be missing. *)
Record lessons_doc := { doc_lessons : option (list Lesson) }.

(** The top-level object of [progress.json]; the key [attempts] may be missing. *)
Record progress_doc := { doc_attempts : option (list AttemptRecord) }.

(** ** [load_lessons] and [save_progress] *)

Definition load_lessons (LESSONS_FILE : file lessons_doc) : result (list Lesson) :=
  try_except
    (data <- read_json LESSONS_FILE ;;
     (* data.get('lessons', []) *)
     Ok (match doc_lessons data with Some ls => ls | None => [] end))
    is_FileNotFoundError
    (Ok []).

(** [save_progress] returns the content of [progress.json] after the call. *)
Definition save_progress (progress_record : AttemptRecord)
           (PROGRESS_FILE : file progress_doc) : result (file progress_doc) :=
  data <- try_except (read_json PROGRESS_FILE) is_FileNotFoundError
            (Ok {| doc_attempts := Some [] |}) ;;
  (* data["attempts"].append(progress_record) *)
  attempts <- match doc_attempts data with
              | Some l => Ok l
              | None => Raise KeyError
              end ;;
  let data := {| doc_attempts := Some (attempts ++ [progress_record]) |} in
  (* json.dump(data, file) on the file opened for writing *)
  Ok (Parsed data).

(** ** [calculate_wpm_and_accuracy] *)

(** The [for i, char in enumerate(typed_text)] loop: [rest] is what is left of
    [typed_text] from index [i] on. *)
Fixpoint count_errors_loop (typed_text reference_text : str)
         (rest : str) (i : nat) (errors : Z) : result Z :=
  match rest with
  | [] => Ok errors
  | char :: rest' =>
      if len reference_text <=? Z.of_nat i then
        (* extra characters beyond the reference; break *)
        Ok (errors + (len typed_text - len reference_text))
      else
        r <- getitem reference_text i ;;
        if negb (N.eqb char r)
        then count_errors_loop typed_text reference_text rest' (S i) (errors + 1)
        else count_errors_loop typed_text reference_text rest' (S i) errors
  end.

(** The value of [errors] when the accuracy is computed. *)
Definition count_errors (typed_text reference_text : str) : result Z :=
  errors <- count_errors_loop typed_text reference_text typed_text 0 0 ;;
  Ok (if len typed_text <? len reference_text
      then errors + (len reference_text - len typed_text)
      else errors).

Definition calculate_wpm_and_accuracy (typed_text reference_text : str)
           (start_time end_time : Binary64.float) : result (num * num) :=
  let elapsed_seconds := Binary64.sub end_time start_time in
  let word_count := len (split reference_text) in
  time_in_minutes <- float_truediv elapsed_seconds (Binary64.lit 60) ;;
  wpm <- (if Binary64.gt_zero time_in_minutes && (0 <? word_count)
          then w <- float_truediv (Binary64.of_Z word_count) time_in_minutes ;;
               Ok (PFloat w)
          else Ok (PInt 0)) ;;
  errors <- count_errors typed_text reference_text ;;
  let total_chars := len reference_text in
  let correct_chars := Z.max 0 (total_chars - errors) in
  accuracy <- (if negb (total_chars =? 0)
               then q <- int_truediv correct_chars total_chars ;;
                    Ok (PFloat (Binary64.mul q (Binary64.of_Z 100)))
               else Ok (PInt 0)) ;;
  Ok (round wpm, round accuracy).

(** ** The application *)

Inductive Tag := correct | incorrect.

(** The [tk.Text] box: its text, and the tag ranges added to it, each the
    range of one character, in the order of the [tag_add] calls. *)
Record TextWidget := {
  buffer : str;
  tags : list (nat * Tag)
}.

(** A results popup: what [show_results] was called with. *)
Record ResultWindow := {
  shown_wpm : num;
  shown_accuracy : num;
  shown_elapsed : Binary64.float
}.

Record TypingApp := {
  lessons : list Lesson;
  current_lesson_index : Z;
  selected_lesson : option Lesson;
  start_time : option Binary64.float;
  user_started_typing : bool;
  (* widgets *)
  lesson_dropdown : option (Z * str);   (* the entry shown: its id and title *)
  username_entry : str;
  lesson_text_label : str;
  typed_text : TextWidget;
  (* popups: each open results window has its 5-second timer pending *)
  result_windows : list ResultWindow;
  finished_windows : nat
}.

Definition placeholder_lesson : Lesson :=
  {| lesson_id := 1;
     title := str_of "No Lessons Found";
     content := str_of "Please check lessons.json" |}.

Definition tag_remove_all (w : TextWidget) : TextWidget :=
  {| buffer := buffer w; tags := [] |}.

Definition tag_add (t : Tag) (i : nat) (w : TextWidget) : TextWidget :=
  {| buffer := buffer w; tags := tags w ++ [(i, t)] |}.

Definition load_lesson_by_index (index : Z) (app : TypingApp) : result TypingApp :=
  if (index <? 0) || (len (lessons app) <=? index) then
    Ok app  (* out of range, do nothing *)
  else
    lesson <- getitem (lessons app) (Z.to_nat index) ;;
    let lesson_titles := List.map (fun l => (lesson_id l, title l)) (lessons app) in
    shown <- getitem lesson_titles (Z.to_nat index) ;;
    Ok {| lessons := lessons app;
          current_lesson_index := index;
          selected_lesson := Some lesson;
          start_time := None;
          user_started_typing := false;
          lesson_dropdown := Some shown;
          username_entry := username_entry app;
          lesson_text_label := content lesson;
          typed_text := {| buffer := []; tags := [] |};
          result_windows := result_windows app;
          finished_windows := finished_windows app |}.

(** The fields as [__init__] and [create_widgets] leave them, before the
    first lesson is loaded. *)
Definition new_app (ls : list Lesson) : TypingApp :=
  {| lessons := ls;
     current_lesson_index := 0;
     selected_lesson := None;
     start_time := None;
     user_started_typing := false;
     lesson_dropdown := None;
     username_entry := [];
     lesson_text_label := [];
     typed_text := {| buffer := []; tags := [] |};
     result_windows := [];
     finished_windows := 0 |}.

(** [TypingApp.__init__] *)
Definition TypingApp_init (LESSONS_FILE : file lessons_doc) : result TypingApp :=
  ls <- load_lessons LESSONS_FILE ;;
  (* if not self.lessons: the fallback *)
  let ls := match ls with [] => [placeholder_lesson] | _ => ls end in
  load_lesson_by_index 0 (new_app ls).

Definition set_typing (started : bool) (t : option Binary64.float)
           (app : TypingApp) : TypingApp :=
  {| lessons := lessons app;
     current_lesson_index := current_lesson_index app;
     selected_lesson := selected_lesson app;
     start_time := t;
     user_started_typing := started;
     lesson_dropdown := lesson_dropdown app;
     username_entry := username_entry app;
     lesson_text_label := lesson_text_label app;
     typed_text := typed_text app;
     result_windows := result_windows app;
     finished_windows := finished_windows app |}.

Definition set_typed_text (w : TextWidget) (app : TypingApp) : TypingApp :=
  {| lessons := lessons app;
     current_lesson_index := current_lesson_index app;
     selected_lesson := selected_lesson app;
     start_time := start_time app;
     user_started_typing := user_started_typing app;
     lesson_dropdown := lesson_dropdown app;
     username_entry := username_entry app;
     lesson_text_label := lesson_text_label app;
     typed_text := w;
     result_windows := result_windows app;
     finished_windows := finished_windows app |}.

Definition set_windows (rs : list ResultWindow) (fin : nat)
           (app : TypingApp) : TypingApp :=
  {| lessons := lessons app;
     current_lesson_index := current_lesson_index app;
     selected_lesson := selected_lesson app;
     start_time := start_time app;
     user_started_typing := user_started_typing app;
     lesson_dropdown := lesson_dropdown app;
     username_entry := username_entry app;
     lesson_text_label := lesson_text_label app;
     typed_text := typed_text app;
     result_windows := rs;
     finished_windows := fin |}.

(** [now] is what [time.time()] returns. *)
Definition on_key_press (now : Binary64.float) (app : TypingApp) : TypingApp :=
  if negb (user_started_typing app)
  then set_typing true (Some now) app
  else app.

(** The body of the loop of [on_text_changed] at index [i]. *)
Definition grade_char (typed reference : str) (i : nat) (w : TextWidget)
  : result TextWidget :=
  if Z.of_nat i <? len reference then
    c <- getitem typed i ;;
    r <- getitem reference i ;;
    if N.eqb c r then Ok (tag_add correct i w) else Ok (tag_add incorrect i w)
  else Ok (tag_add incorrect i w).

(** [for i in range(len(typed_text))] *)
Fixpoint grade_loop (typed reference : str) (range : list nat) (w : TextWidget)
  : result TextWidget :=
  match range with
  | [] => Ok w
  | i :: range' =>
      w' <- grade_char typed reference i w ;;
      grade_loop typed reference range' w'
  end.

Definition on_text_changed (app : TypingApp) : result TypingApp :=
  match selected_lesson app with
  | None => Ok app
  | Some lesson =>
      let typed := buffer (typed_text app) in   (* get("1.0", "end-1c") *)
      let reference := content lesson in
      let w := tag_remove_all (typed_text app) in
      w' <- grade_loop typed reference (seq 0 (List.length typed)) w ;;
      Ok (set_typed_text w' app)
  end.

Definition show_results (wpm accuracy : num) (elapsed : Binary64.float)
           (app : TypingApp) : TypingApp :=
  set_windows
    (result_windows app ++
       [{| shown_wpm := wpm; shown_accuracy := accuracy; shown_elapsed := elapsed |}])
    (finished_windows app) app.

(** [now] is what [time.time()] returns and [stamp] what
    [datetime.now().isoformat()] returns; the result carries the content of
    [progress.json] after the call. *)
Definition on_submit (now : Binary64.float) (stamp : str)
           (PROGRESS_FILE : file progress_doc) (app : TypingApp)
  : result (file progress_doc * TypingApp) :=
  match selected_lesson app with
  | None => Ok (PROGRESS_FILE, app)
  | Some lesson =>
      if negb (user_started_typing app) then Ok (PROGRESS_FILE, app)
      else
        let end_time := now in
        (* get("1.0", tk.END) is the text and the final newline of the widget *)
        let typed := rstrip_newlines (buffer (typed_text app) ++ [newline]) in
        started <- match start_time app with
                   | Some t => Ok t
                   | None => Raise TypeError
                   end ;;
        ' (w, a) <- calculate_wpm_and_accuracy typed (content lesson) started end_time ;;
        let username :=
          match strip (username_entry app) with
          | [] => str_of "Anonymous"
          | u => u
          end in
        let progress_record :=
          {| user := username;
             lessonId := lesson_id lesson;
             lessonTitle := title lesson;
             timestamp := stamp;
             wpm := w;
             accuracy := a |} in
        file' <- save_progress progress_record PROGRESS_FILE ;;
        Ok (file', show_results w a (Binary64.sub end_time started) app)
  end.

(** The timer of the oldest results popup fires. *)
Definition close_results_and_next (app : TypingApp) : result TypingApp :=
  let app := set_windows (tl (result_windows app)) (finished_windows app) app in
  let next_index := current_lesson_index app + 1 in
  if next_index <? len (lessons app) then
    load_lesson_by_index next_index app
  else
    (* the "All Lessons Complete" window *)
    Ok (set_windows (result_windows app) (S (finished_windows app)) app).

(** ** Events of a session *)

(** What the user and the event loop do: a key is pressed in the text box
    (the [KeyPress] handler runs, the box takes the edit, the [KeyRelease]
    handler runs), the Submit button is pressed, a results timer fires. *)
Inductive event :=
| Keystroke (now : Binary64.float) (new_buffer : str)
| Submit (now : Binary64.float) (stamp : str)
| TimerFires.

Record world := {
  progress_file : file progress_doc;
  app_state : TypingApp
}.

Definition step (ev : event) (w : world) : result world :=
  match ev with
  | Keystroke now new_buffer =>
      let app := on_key_press now (app_state w) in
      let app := set_typed_text {| buffer := new_buffer;
                                   tags := tags (typed_text app) |} app in
      app' <- on_text_changed app ;;
      Ok {| progress_file := progress_file w; app_state := app' |}
  | Submit now stamp =>
      ' (f, app') <- on_submit now stamp (progress_file w) (app_state w) ;;
      Ok {| progress_file := f; app_state := app' |}
  | TimerFires =>
      match result_windows (app_state w) with
      | [] => Ok w
      | _ =>
          app' <- close_results_and_next (app_state w) ;;
          Ok {| progress_file := progress_file w; app_state := app' |}
      end
  end.

Fixpoint run (evs : list event) (w : world) : result world :=
  match evs with
  | [] => Ok w
  | ev :: evs' => w' <- step ev w ;; run evs' w'
  end.

(** The records in [progress.json]. *)
Definition records (f : file progress_doc) : list AttemptRecord :=
  match f with
  | Parsed {| doc_attempts := Some l |} => l
  | _ => []
  end.

(** ** The properties, as the specification words them *)

Module Spec.

(** "any index within reference bounds with a differing character counts as
    one error" *)
Definition differs_at (typed reference : str) (i : nat) : bool :=
  match nth_error typed i, nth_error reference i with
  | Some a, Some b => negb (N.eqb a b)
  | _, _ => false
  end.

Definition mismatches (typed reference : str) : Z :=
  len (filter (differs_at typed reference) (seq 0 (List.length reference))).

(** Mismatches within bounds, plus the extra characters when [typed] is
    longer, plus the untyped tail when it is shorter. *)
Definition errors (typed reference : str) : Z :=
  mismatches typed reference
  + (if len reference <? len typed then len typed - len reference else 0)
  + (if len typed <? len reference then len reference - len typed else 0).

(** [round(max(0, len(reference) - errors) / len(reference) * 100, 2)], and
    [0] for an empty reference. *)
Definition accuracy (typed reference : str) : num :=
  if len reference =? 0 then PInt 0
  else
    round (PFloat (Binary64.mul
                     (Binary64.div_Z (Z.max 0 (len reference - errors typed reference))
                                     (len reference))
                     (Binary64.of_Z 100))).

(** The number of whitespace-delimited tokens: the positions where a token
    starts, a character that is not whitespace at the start of the text or
    after whitespace. *)
Fixpoint token_starts (after_space : bool) (s : str) : nat :=
  match s with
  | [] => 0
  | c :: rest =>
      ((if after_space && negb (isspace c) then 1 else 0)
       + token_starts (isspace c) rest)%nat
  end.

Definition word_count (reference : str) : Z := Z.of_nat (token_starts true reference).

Definition elapsed_minutes (start_time end_time : Binary64.float) : Binary64.float :=
  Binary64.div (Binary64.sub end_time start_time) (Binary64.lit 60).

(** [wordCount / elapsedMinutes] rounded to 2 decimals when both are
    positive, [0] otherwise. *)
Definition wpm (reference : str) (start_time end_time : Binary64.float) : num :=
  if Binary64.gt_zero (elapsed_minutes start_time end_time) && (0 <? word_count reference)
  then round (PFloat (Binary64.div (Binary64.of_Z (word_count reference))
                                   (elapsed_minutes start_time end_time)))
  else PInt 0.

(** The per-index verdicts of the diff. *)
Inductive Classification := Match | Mismatch | Missing | Extra.

(** The verdict at index [i], for [i] below [max(len(typed), len(reference))]. *)
Definition classify (typed reference : str) (i : nat) : option Classification :=
  match nth_error typed i, nth_error reference i with
  | Some a, Some b => Some (if N.eqb a b then Match else Mismatch)
  | Some _, None => Some Extra
  | None, Some _ => Some Missing
  | None, None => None
  end.

Definition diff (typed reference : str) : list (option Classification) :=
  List.map (classify typed reference)
           (seq 0 (Nat.max (List.length typed) (List.length reference))).

End Spec.

(** How the text box shows a verdict: a green or a red range, or nothing. *)
Definition tag_of (c : Spec.Classification) : option Tag :=
  match c with
  | Spec.Match => Some correct
  | Spec.Mismatch | Spec.Extra => Some incorrect
  | Spec.Missing => None
  end.

(** The tags the text box carries on the character at index [i]. *)
Definition tags_at (w : TextWidget) (i : nat) : list Tag :=
  List.map snd (filter (fun p => Nat.eqb (fst p) i) (tags w)).


(** The tag the loop of [on_text_changed] puts on the typed character at
    index [i]. *)
Definition tag_for (typed reference : str) (i : nat) : Tag :=
  match nth_error typed i, nth_error reference i with
  | Some a, Some b => if N.eqb a b then correct else incorrect
  | _, _ => incorrect
  end.

(** [save_progress] called once per record, in order. *)
Fixpoint save_all (rs : list AttemptRecord) (f : file progress_doc)
  : result (file progress_doc) :=
  match rs with
  | [] => Ok f
  | r :: rs' => f' <- save_progress r f ;; save_all rs' f'
  end.

(** [progress.json] is missing, or holds a document with its [attempts]. *)
Definition usable (f : file progress_doc) : Prop :=
  match f with
  | Absent => True
  | Parsed {| doc_attempts := Some _ |} => True
  | _ => False
  end.

(** A session in which a key has been pressed since the lesson was loaded. *)
Definition typing_started (app : TypingApp) : Prop :=
  user_started_typing app = true
  /\ (exists lesson, selected_lesson app = Some lesson)
  /\ (exists t, start_time app = Some t).

(** ** Concrete data for the examples *)

Definition lesson_1 : Lesson :=
  {| lesson_id := 1; title := str_of "Home row"; content := str_of "ab" |}.

Definition lesson_2 : Lesson :=
  {| lesson_id := 2; title := str_of "Three words"; content := str_of "a b c" |}.

Definition two_lessons : file lessons_doc :=
  Parsed {| doc_lessons := Some [lesson_1; lesson_2] |}.

Definition stamp_1 : str := str_of "2024-01-01T10:00:00".
Definition stamp_2 : str := str_of "2024-01-01T10:00:01".

(** The application right after start-up on [two_lessons], with no
    [progress.json] yet. *)
Definition world_0 : result world :=
  app <- TypingApp_init two_lessons ;;
  Ok {| progress_file := Absent; app_state := app |}.

(** The user has typed [a] at time 1000: the box holds [a] where the lesson
    reads [ab]. *)
Definition world_1 : result world :=
  w <- world_0 ;; run [Keystroke (Binary64.lit 1000) (str_of "a")] w.

(** The application in [world_1]. *)
Definition app_1 : TypingApp :=
  match world_1 with
  | Ok w => app_state w
  | Raise _ => new_app []
  end.

Definition sample_record (n : Z) : AttemptRecord :=
  {| user := str_of "Anonymous"; lessonId := n; lessonTitle := str_of "Home row";
     timestamp := stamp_1; wpm := PInt 0; accuracy := PFloat (Binary64.lit 50) |}.

(** A reference of 20000 characters and the same text with its last
    character left out. *)
Definition long_reference : str := repeat 97%N (Z.to_nat 20000).
Definition long_typed : str := repeat 97%N (Z.to_nat 19999).

(** The application in [world_0]: just started on [two_lessons]. *)
Definition app_0 : TypingApp :=
  match world_0 with
  | Ok w => app_state w
  | Raise _ => new_app []
  end.

(** The record [on_submit] stores for a started session. *)
Definition attempt_of (now : Binary64.float) (stamp : str) (app : TypingApp)
           (lesson : Lesson) (started : Binary64.float) : AttemptRecord :=
  let typed := rstrip_newlines (buffer (typed_text app) ++ [newline]) in
  {| user := match strip (username_entry app) with
             | [] => str_of "Anonymous"
             | u => u
             end;
     lessonId := lesson_id lesson;
     lessonTitle := title lesson;
     timestamp := stamp;
     wpm := Spec.wpm (content lesson) started now;
     accuracy := Spec.accuracy typed (content lesson) |}.

(** What holds of the application from start-up on: a lesson is selected,
    its index is the current one and lies in the catalog, and a started
    session has its start time. *)
Definition well_formed (app : TypingApp) : Prop :=
  0 <= current_lesson_index app < len (lessons app)
  /\ (exists lesson, selected_lesson app = Some lesson)
  /\ (user_started_typing app = true -> exists t, start_time app = Some t).

From Stdlib Require Import DecimalString DecimalZ.

(** ** Choosing a lesson in the dropdown *)

(** [str(n)] on an integer: its decimal digits, after a minus sign when it is
    negative. *)
Definition str_of_int (n : Z) : str :=
  str_of (NilZero.string_of_int (Z.to_int n)).

(** An entry of the dropdown, [f"{lesson['id']}: {lesson['title']}"]. *)
Definition lesson_title (lesson : Lesson) : str :=
  str_of_int (lesson_id lesson) ++ str_of ": " ++ title lesson.

(** The values [create_widgets] gives the dropdown. *)
Definition lesson_titles (app : TypingApp) : list str :=
  List.map lesson_title (lessons app).

Definition colon : char := 58%N.

(** [s.split(sep)] for a separator of one character: the pieces between the
    separators, in order.  [tok] holds the piece being read, last character
    first. *)
Fixpoint split_on_from (sep : char) (tok : str) (s : str) : list str :=
  match s with
  | [] => [rev tok]
  | c :: rest =>
      if N.eqb c sep then rev tok :: split_on_from sep [] rest
      else split_on_from sep (c :: tok) rest
  end.

Definition split_on (sep : char) (s : str) : list str := split_on_from sep [] s.

(** [a == b] on strings. *)
Fixpoint str_eqb (a b : str) : bool :=
  match a, b with
  | [], [] => true
  | x :: a', y :: b' => N.eqb x y && str_eqb a' b'
  | _, _ => false
  end.

(** The loop of [on_lesson_selected] over [enumerate(self.lessons)], from
    index [i] on: the first lesson whose id prints as [lesson_id_str] is
    loaded and the loop ends. *)
Fixpoint on_lesson_selected_loop (lesson_id_str : str) (rest : list Lesson)
         (i : Z) (app : TypingApp) : result TypingApp :=
  match rest with
  | [] => Ok app
  | lesson :: rest' =>
      if str_eqb (str_of_int (lesson_id lesson)) lesson_id_str
      then load_lesson_by_index i app   (* break *)
      else on_lesson_selected_loop lesson_id_str rest' (i + 1) app
  end.

(** [selected_str] is what [self.lesson_var.get()] returns. *)
Definition on_lesson_selected (selected_str : str) (app : TypingApp)
  : result TypingApp :=
  first <- getitem (split_on colon selected_str) 0 ;;
  let lesson_id_str := strip first in
  on_lesson_selected_loop lesson_id_str (lessons app) 0 app.

(** A number returned as words per minute or accuracy that is neither
    negative nor NaN. *)
Definition not_negative (x : num) : Prop :=
  match x with
  | PInt z => 0 <= z
  | PFloat (S754_zero false) | PFloat (S754_infinity false)
  | PFloat (S754_finite false _ _) => True
  | PFloat _ => False
  end.

(** A percentage: the integer [0], or a float from [0.0] to [100.0]. *)
Definition is_percentage (x : num) : Prop :=
  match x with
  | PInt z => z = 0
  | PFloat (S754_zero false) => True
  | PFloat (S754_finite false m e) => (inject_Z (Zpos m) * 2 ^ e <= 100)%Q
  | PFloat _ => False
  end.

(** The application with other text in the box. *)
Definition with_buffer (b : str) (app : TypingApp) : TypingApp :=
  set_typed_text {| buffer := b; tags := tags (typed_text app) |} app.

(** The application with other tags left in the box. *)
Definition with_tags (ts : list (nat * Tag)) (app : TypingApp) : TypingApp :=
  set_typed_text {| buffer := buffer (typed_text app); tags := ts |} app.

(** A list of keystrokes as events. *)
Definition keystrokes (ks : list (Binary64.float * str)) : list event :=
  List.map (fun k => Keystroke (fst k) (snd k)) ks.

(** ** Sessions with the dropdown *)

(** An event of the engine, or the user picking something in the dropdown:
    [selected_str] is what the dropdown then holds. *)
Inductive ui_event :=
| Engine (ev : event)
| LessonSelected (selected_str : str).

Definition ui_step (ev : ui_event) (w : world) : result world :=
  match ev with
  | Engine ev => step ev w
  | LessonSelected selected_str =>
      app' <- on_lesson_selected selected_str (app_state w) ;;
      Ok {| progress_file := progress_file w; app_state := app' |}
  end.

Fixpoint ui_run (evs : list ui_event) (w : world) : result world :=
  match evs with
  | [] => Ok w
  | ev :: evs' => w' <- ui_step ev w ;; ui_run evs' w'
  end.

(** The selected lesson is the one of the catalog at the current index, and
    the label shows its text. *)
Definition shows_current_lesson (app : TypingApp) : Prop :=
  exists lesson,
    nth_error (lessons app) (Z.to_nat (current_lesson_index app)) = Some lesson
    /\ selected_lesson app = Some lesson
    /\ lesson_text_label app = content lesson.

(** The number of submits among some events. *)
Definition is_submit (ev : ui_event) : bool :=
  match ev with
  | Engine (Submit _ _) => true
  | _ => false
  end.

Definition submits (evs : list ui_event) : nat :=
  List.length (filter is_submit evs).

(** ** More concrete data *)

Definition lesson_3 : Lesson :=
  {| lesson_id := 3; title := str_of "Numbers"; content := str_of "1 2 3" |}.

(** The application started on the lessons [ls], after the key [a] was
    pressed at time 1000. *)
Definition typing_app (ls : list Lesson) : TypingApp :=
  match TypingApp_init (Parsed {| doc_lessons := Some ls |}) with
  | Ok app => with_buffer (str_of "a") (on_key_press (Binary64.lit 1000) app)
  | Raise _ => new_app []
  end.


(** ** The Return key *)

(** [state] is the modifier mask of the key event.  The result carries the
    log and the application after the call, and whether the handler returned
    ["break"], which keeps the newline out of the box. *)
Definition on_return_pressed (state : Z) (now : Binary64.float) (stamp : str)
           (PROGRESS_FILE : file progress_doc) (app : TypingApp)
  : result (file progress_doc * TypingApp * bool) :=
  let SHIFT_HELD := Z.land state 1 in
  if negb (SHIFT_HELD =? 0) then
    ' (f, app') <- on_submit now stamp PROGRESS_FILE app ;;
    Ok (f, app', true)
  else
    Ok (PROGRESS_FILE, app, false).

(* ================================================================== *)
(** * Part II. Theorems                                                *)
(* ================================================================== *)

(** ** The arithmetic agrees with the Standard Library's binary64 *)

Example binary64_agrees_with_SpecFloat :
  List.map (fun p => Binary64.sub (fst p) (snd p)) Binary64.sample_pairs
  = List.map (fun p => SFsub 53 1024 (fst p) (snd p)) Binary64.sample_pairs
  /\ List.map (fun p => Binary64.mul (fst p) (snd p)) Binary64.sample_pairs
     = List.map (fun p => SFmul 53 1024 (fst p) (snd p)) Binary64.sample_pairs
  /\ List.map (fun p => Binary64.div (fst p) (snd p)) Binary64.sample_pairs
     = List.map (fun p => SFdiv 53 1024 (fst p) (snd p)) Binary64.sample_pairs
  /\ List.map Binary64.of_Z [0; 1; -1; 100; 2 ^ 53 + 1; 2 ^ 53 + 3; 2 ^ 63 - 1]
     = List.map (fun z => binary_normalize 53 1024 z 0 false)
                [0; 1; -1; 100; 2 ^ 53 + 1; 2 ^ 53 + 3; 2 ^ 63 - 1].
Proof.
  split; [vm_compute; reflexivity|].
  split; [vm_compute; reflexivity|].
  split; vm_compute; reflexivity.
Qed.

(** [round(2.675, 2)] is [2.67] (the float 2.675 lies below the decimal),
    exact ties go to the even digit, and the sign of a zero is kept. *)
Example round_2_examples :
  Binary64.round_2 (Binary64.lit (2675 # 1000)) = Binary64.lit (267 # 100)
  /\ Binary64.round_2 (Binary64.lit (125 # 1000)) = Binary64.lit (12 # 100)
  /\ Binary64.round_2 (Binary64.lit (375 # 1000)) = Binary64.lit (38 # 100)
  /\ Binary64.round_2 (Binary64.lit (- (1 # 1000))) = S754_zero true
  /\ Binary64.round_2 (Binary64.of_Z (2 ^ 60 + 2 ^ 20)) = Binary64.of_Z (2 ^ 60 + 2 ^ 20).
Proof.
  do 4 (split; [vm_compute; reflexivity|]).
  vm_compute. reflexivity.
Qed.

(** ** Indexing *)

Lemma getitem_in_range {A} (l : list A) (i : nat) :
  (i < List.length l)%nat -> exists a, getitem l i = Ok a /\ nth_error l i = Some a.
Proof.
  intros Hi. unfold getitem.
  destruct (nth_error l i) as [a|] eqn:E.
  - now exists a.
  - apply nth_error_None in E. lia.
Qed.

Lemma len_nonneg {A} (l : list A) : 0 <= len l.
Proof. unfold len. lia. Qed.

(** ** The error count *)

Section ErrorCount.

Variables typed reference : str.

Let extra : Z :=
  if len reference <? len typed then len typed - len reference else 0.

(** The loop invariant: at index [i], not past the end of the reference,
    with [rest] the characters of [typed] from [i] on. *)
Lemma count_errors_loop_spec (rest : str) (i : nat) (errors : Z) :
  rest = skipn i typed ->
  (i <= List.length typed)%nat ->
  (i <= List.length reference)%nat ->
  count_errors_loop typed reference rest i errors
  = Ok (errors
        + len (filter (Spec.differs_at typed reference)
                      (seq i (List.length reference - i)))
        + extra).
Proof.
  revert i errors.
  induction rest as [|c rest IH]; intros i errors Hrest Hi Hr.
  - (* the walk ended inside the reference *)
    assert (List.length (skipn i typed) = 0%nat) as E by now rewrite <- Hrest.
    rewrite length_skipn in E.
    assert (i = List.length typed) by lia. subst i.
    cbn [count_errors_loop]. f_equal.
    assert (len (filter (Spec.differs_at typed reference)
                   (seq (List.length typed) (List.length reference - List.length typed))) = 0) as ->.
    { unfold len. 
      rewrite (filter_ext_in _ (fun _ => false)), filter_false; [reflexivity|].
      intros j Hj. apply in_seq in Hj.
      unfold Spec.differs_at.
      rewrite (proj2 (nth_error_None typed j)) by lia. reflexivity. }
    unfold extra, len.
    destruct (Z.ltb_spec (Z.of_nat (List.length reference)) (Z.of_nat (List.length typed))); lia.
  - assert (nth_error typed i = Some c) as Hc.
    { rewrite <- (firstn_skipn i typed) at 1.
      rewrite nth_error_app2 by (rewrite length_firstn; lia).
      rewrite length_firstn, Nat.min_l by lia.
      rewrite Nat.sub_diag, <- Hrest. reflexivity. }
    assert (i < List.length typed)%nat as Hlt
        by (apply nth_error_Some; rewrite Hc; discriminate).
    cbn [count_errors_loop].
    destruct (Z.leb_spec (len reference) (Z.of_nat i)) as [Hge|Hlt'].
    + (* past the reference: the batch of extra characters, then break *)
      unfold len in Hge. assert (i = List.length reference) by lia. subst i.
      rewrite Nat.sub_diag. cbn [seq filter]. f_equal.
      unfold extra, len in *. cbn [List.length].
      destruct (Z.ltb_spec (Z.of_nat (List.length reference)) (Z.of_nat (List.length typed))); lia.
    + unfold len in Hlt'.
      destruct (getitem_in_range reference i ltac:(lia)) as (r & Hg & Hn).
      rewrite Hg. cbn [bind].
      assert (rest = skipn (S i) typed) as Hrest'.
      { rewrite <- (Nat.add_1_l i), <- skipn_skipn, <- Hrest. reflexivity. }
      replace (List.length reference - i)%nat
        with (S (List.length reference - S i)) by lia.
      cbn [seq filter].
      assert (Spec.differs_at typed reference i = negb (N.eqb c r)) as ->
          by (unfold Spec.differs_at; now rewrite Hc, Hn).
      destruct (N.eqb c r); cbn [negb].
      * rewrite (IH (S i) errors Hrest') by lia. reflexivity.
      * rewrite (IH (S i) (errors + 1) Hrest') by lia.
        f_equal. unfold len. cbn [List.length]. lia.
Qed.

(** The error count of the code is the one the specification words. *)
Lemma count_errors_spec :
  count_errors typed reference = Ok (Spec.errors typed reference).
Proof.
  unfold count_errors.
  rewrite (count_errors_loop_spec typed 0 0) by (reflexivity || lia).
  cbn [bind]. f_equal.
  rewrite Nat.sub_0_r. unfold Spec.errors, Spec.mismatches, extra.
  destruct (len typed <? len reference); lia.
Qed.

End ErrorCount.

(** ** Word count *)

(** [split] yields one word per token start; a run being read counts as one. *)
Lemma split_ws_length (s tok : str) :
  List.length (split_ws tok s)
  = (Spec.token_starts (match tok with [] => true | _ => false end) s
     + match tok with [] => 0 | _ => 1 end)%nat.
Proof.
  revert tok. induction s as [|c rest IH]; intros tok.
  - destruct tok; reflexivity.
  - cbn [split_ws Spec.token_starts].
    destruct (isspace c) eqn:Hc.
    + destruct tok; cbn [andb negb List.length]; rewrite IH; cbn; lia.
    + rewrite IH. destruct tok; cbn [andb negb]; lia.
Qed.

Lemma split_word_count (s : str) : len (split s) = Spec.word_count s.
Proof.
  unfold len, split, Spec.word_count. rewrite split_ws_length. f_equal. lia.
Qed.

(** ** The scoring function never raises, and what it returns *)

Lemma lit_60_not_zero : Binary64.is_zero (Binary64.lit 60) = false.
Proof. vm_compute. reflexivity. Qed.

Lemma gt_zero_not_zero (x : Binary64.float) :
  Binary64.gt_zero x = true -> Binary64.is_zero x = false.
Proof. destruct x as [s|s| |s m e]; try destruct s; cbn; congruence. Qed.

Lemma calculate_wpm_and_accuracy_spec (typed reference : str)
      (start_time end_time : Binary64.float) :
  calculate_wpm_and_accuracy typed reference start_time end_time
  = Ok (Spec.wpm reference start_time end_time, Spec.accuracy typed reference).
Proof.
  unfold calculate_wpm_and_accuracy, float_truediv.
  rewrite lit_60_not_zero. cbn [bind].
  rewrite count_errors_spec, split_word_count.
  unfold Spec.wpm, Spec.accuracy, Spec.elapsed_minutes.
  set (minutes := Binary64.div (Binary64.sub end_time start_time) (Binary64.lit 60)).
  assert (forall w : num,
             (accuracy <-
                (if negb (len reference =? 0)
                 then q <- int_truediv (Z.max 0 (len reference - Spec.errors typed reference))
                                       (len reference) ;;
                      Ok (PFloat (Binary64.mul q (Binary64.of_Z 100)))
                 else Ok (PInt 0)) ;;
              Ok (round w, round accuracy))
             = Ok (round w,
                   if len reference =? 0 then PInt 0
                   else round (PFloat (Binary64.mul
                          (Binary64.div_Z (Z.max 0 (len reference - Spec.errors typed reference))
                                          (len reference))
                          (Binary64.of_Z 100))))) as Hacc.
  { intros w. unfold int_truediv.
    destruct (len reference =? 0); reflexivity. }
  destruct (Binary64.gt_zero minutes) eqn:Hpos; cbn [andb].
  - destruct (0 <? Spec.word_count reference).
    + rewrite (gt_zero_not_zero _ Hpos). cbn [bind]. apply Hacc.
    + cbn [bind]. apply Hacc.
  - cbn [bind]. apply Hacc.
Qed.

(** ** Live grading *)

Lemma grade_char_spec (typed reference : str) (i : nat) (w : TextWidget) :
  (i < List.length typed)%nat ->
  grade_char typed reference i w = Ok (tag_add (tag_for typed reference i) i w).
Proof.
  intros Hi. unfold grade_char, tag_for.
  destruct (getitem_in_range typed i Hi) as (c & Hg & Hn). rewrite Hn.
  destruct (Z.ltb_spec (Z.of_nat i) (len reference)) as [Hlt|Hge].
  - unfold len in Hlt.
    destruct (getitem_in_range reference i ltac:(lia)) as (r & Hg' & Hn').
    rewrite Hg, Hg', Hn'. cbn [bind]. now destruct (N.eqb c r).
  - unfold len in Hge.
    rewrite (proj2 (nth_error_None reference i)) by lia. reflexivity.
Qed.

Lemma grade_loop_spec (typed reference : str) (range : list nat) :
  forall w,
    (forall i, In i range -> (i < List.length typed)%nat) ->
    grade_loop typed reference range w
    = Ok {| buffer := buffer w;
            tags := tags w ++ List.map (fun i => (i, tag_for typed reference i)) range |}.
Proof.
  induction range as [|i range IH]; intros w Hin.
  - cbn. rewrite app_nil_r. now destruct w.
  - cbn [grade_loop]. rewrite grade_char_spec by (apply Hin; now left).
    cbn [bind]. rewrite IH by (intros j Hj; apply Hin; now right).
    unfold tag_add. cbn [buffer tags List.map]. now rewrite <- app_assoc.
Qed.

Lemma on_text_changed_spec (app : TypingApp) (lesson : Lesson) :
  selected_lesson app = Some lesson ->
  on_text_changed app
  = Ok (set_typed_text
          {| buffer := buffer (typed_text app);
             tags := List.map (fun i => (i, tag_for (buffer (typed_text app)) (content lesson) i))
                              (seq 0 (List.length (buffer (typed_text app)))) |}
          app).
Proof.
  intros Hsel. unfold on_text_changed. rewrite Hsel.
  rewrite grade_loop_spec by (intros i Hi; apply in_seq in Hi; lia).
  reflexivity.
Qed.

Lemma tags_at_map_seq (f : nat -> Tag) (b : str) (n i : nat) :
  tags_at {| buffer := b; tags := List.map (fun j => (j, f j)) (seq 0 n) |} i
  = if (i <? n)%nat then [f i] else [].
Proof.
  unfold tags_at. cbn [tags].
  induction n as [|n IH].
  - reflexivity.
  - rewrite seq_S, map_app, filter_app, map_app, IH. cbn [List.map filter fst snd Nat.add].
    destruct (Nat.eqb_spec n i) as [->|Hne].
    + rewrite (proj2 (Nat.ltb_ge i i)) by lia.
      rewrite (proj2 (Nat.ltb_lt i (S i))) by lia. reflexivity.
    + cbn [List.map]. rewrite app_nil_r.
      destruct (Nat.ltb_spec i n), (Nat.ltb_spec i (S n)); (reflexivity || lia).
Qed.

(** The two tags are the four verdicts of the diff with [Mismatch] and
    [Extra] shown alike and [Missing] not shown. *)
Lemma tag_for_classify (typed reference : str) (i : nat) :
  (if (i <? List.length typed)%nat then [tag_for typed reference i] else [])
  = match Spec.classify typed reference i with
    | Some c => match tag_of c with Some t => [t] | None => [] end
    | None => []
    end.
Proof.
  unfold tag_for, Spec.classify.
  destruct (Nat.ltb_spec i (List.length typed)) as [Hlt|Hge].
  - destruct (nth_error typed i) as [a|] eqn:Ha.
    + destruct (nth_error reference i) as [b|]; [destruct (N.eqb a b)|]; reflexivity.
    + apply nth_error_None in Ha. lia.
  - rewrite (proj2 (nth_error_None typed i)) by lia.
    now destruct (nth_error reference i).
Qed.

(** C3, as stated, fails: with [a] typed against the lesson [ab] the text box
    carries one tag, on index 0, and nothing at index 1, where the diff of the
    specification has the verdict [Missing]; the number of verdicts is not
    [max(len(typed), len(reference))]. *)
Lemma C3_missing_index_is_not_classified :
  exists w,
    world_1 = Ok w
    /\ buffer (typed_text (app_state w)) = str_of "a"
    /\ selected_lesson (app_state w) = Some lesson_1
    /\ tags (typed_text (app_state w)) = [(0%nat, correct)]
    /\ Spec.classify (str_of "a") (content lesson_1) 1 = Some Spec.Missing
    /\ tags_at (typed_text (app_state w)) 1 = []
    /\ List.length (tags (typed_text (app_state w)))
       <> Nat.max (List.length (str_of "a")) (List.length (content lesson_1)).
Proof.
  eexists. split; [vm_compute; reflexivity|].
  cbn [app_state typed_text buffer tags selected_lesson].
  repeat split; try reflexivity.
  vm_compute. discriminate.
Qed.

(** C3, amended: [on_text_changed] tags exactly the typed characters, one tag
    each: [correct] where the diff says [Match], [incorrect] where it says
    [Mismatch] or [Extra]; an index the diff calls [Missing] gets no tag.  When
    the typed text is a strict prefix of the reference of length [k], the
    indices below [k] are tagged [correct] and no index from [k] on is tagged. *)
Theorem C3_live_grading_tags (app : TypingApp) (lesson : Lesson) :
  selected_lesson app = Some lesson ->
  let typed := buffer (typed_text app) in
  let reference := content lesson in
  exists app',
    on_text_changed app = Ok app'
    /\ buffer (typed_text app') = typed
    /\ List.length (tags (typed_text app')) = List.length typed
    /\ (forall i,
           tags_at (typed_text app') i
           = match Spec.classify typed reference i with
             | Some c => match tag_of c with Some t => [t] | None => [] end
             | None => []
             end)
    /\ (forall tail, tail <> [] -> reference = typed ++ tail ->
          forall i,
            ((i < List.length typed)%nat ->
               Spec.classify typed reference i = Some Spec.Match
               /\ tags_at (typed_text app') i = [correct])
            /\ ((List.length typed <= i < List.length reference)%nat ->
               Spec.classify typed reference i = Some Spec.Missing
               /\ tags_at (typed_text app') i = [])).
Proof.
  intros Hsel typed reference.
  eexists. split; [apply (on_text_changed_spec app lesson Hsel)|].
  cbn [set_typed_text typed_text buffer tags].
  fold typed. fold reference.
  assert (forall i,
             tags_at {| buffer := typed;
                        tags := List.map (fun i => (i, tag_for typed reference i))
                                         (seq 0 (List.length typed)) |} i
             = match Spec.classify typed reference i with
               | Some c => match tag_of c with Some t => [t] | None => [] end
               | None => []
               end) as Hat.
  { intros i.
    rewrite (tags_at_map_seq (tag_for typed reference)).
    apply tag_for_classify. }
  split; [reflexivity|]. split; [now rewrite length_map, length_seq|].
  split; [exact Hat|].
  intros tail Htail Href i. split.
  - intros Hi.
    assert (Spec.classify typed reference i = Some Spec.Match) as Hc.
    { unfold Spec.classify. rewrite Href, nth_error_app1 by exact Hi.
      destruct (nth_error typed i) as [a|] eqn:Ha.
      - now rewrite N.eqb_refl.
      - apply nth_error_None in Ha. lia. }
    split; [exact Hc|]. rewrite Hat, Hc. reflexivity.
  - intros [Hlo Hhi].
    assert (Spec.classify typed reference i = Some Spec.Missing) as Hc.
    { unfold Spec.classify.
      rewrite (proj2 (nth_error_None typed i)) by lia.
      destruct (nth_error reference i) eqn:Hr; [reflexivity|].
      apply nth_error_None in Hr. lia. }
    split; [exact Hc|]. rewrite Hat, Hc. reflexivity.
Qed.

Lemma C3_live_grading_tags_witness :
  exists app',
    on_text_changed app_1 = Ok app'
    /\ tags_at (typed_text app') 0 = [correct]
    /\ tags_at (typed_text app') 1 = [].
Proof.
  destruct (C3_live_grading_tags app_1 lesson_1 eq_refl)
    as (app' & Hrun & _ & _ & _ & Hprefix).
  exists app'. split; [exact Hrun|].
  specialize (Hprefix (str_of "b") ltac:(discriminate) eq_refl).
  split.
  - apply (Hprefix 0%nat). vm_compute. reflexivity.
  - apply (Hprefix 1%nat). vm_compute. split; reflexivity || (intros ?; discriminate).
Defined.

(** ** Loading a lesson *)

Lemma load_lesson_by_index_out_of_range (index : Z) (app : TypingApp) :
  index < 0 \/ len (lessons app) <= index ->
  load_lesson_by_index index app = Ok app.
Proof.
  intros H. unfold load_lesson_by_index.
  destruct (Z.ltb_spec index 0), (Z.leb_spec (len (lessons app)) index);
    cbn [orb]; try reflexivity; lia.
Qed.

Lemma load_lesson_by_index_in_range (index : Z) (app : TypingApp) :
  0 <= index < len (lessons app) ->
  exists lesson,
    nth_error (lessons app) (Z.to_nat index) = Some lesson
    /\ load_lesson_by_index index app
       = Ok {| lessons := lessons app;
               current_lesson_index := index;
               selected_lesson := Some lesson;
               start_time := None;
               user_started_typing := false;
               lesson_dropdown := Some (lesson_id lesson, title lesson);
               username_entry := username_entry app;
               lesson_text_label := content lesson;
               typed_text := {| buffer := []; tags := [] |};
               result_windows := result_windows app;
               finished_windows := finished_windows app |}.
Proof.
  intros [Hlo Hhi]. unfold load_lesson_by_index.
  destruct (Z.ltb_spec index 0); [lia|].
  destruct (Z.leb_spec (len (lessons app)) index); [lia|]. cbn [orb].
  unfold len in Hhi.
  destruct (getitem_in_range (lessons app) (Z.to_nat index) ltac:(lia))
    as (lesson & Hg & Hn).
  exists lesson. split; [exact Hn|].
  rewrite Hg. cbn [bind].
  unfold getitem. rewrite nth_error_map, Hn. reflexivity.
Qed.

(** C6, as stated, fails: on a catalog of two lessons, loading index 2 (and
    index -1) returns normally and leaves the application as it was; no error
    is raised. *)
Lemma C6_out_of_range_returns_silently :
  TypingApp_init two_lessons = Ok app_0
  /\ len (lessons app_0) = 2
  /\ load_lesson_by_index 2 app_0 = Ok app_0
  /\ load_lesson_by_index (-1) app_0 = Ok app_0
  /\ forall e, load_lesson_by_index 2 app_0 <> Raise e.
Proof.
  do 4 (split; [vm_compute; reflexivity|]).
  intros e. vm_compute. discriminate.
Qed.

(** C6, amended: for every index outside [0, count) [load_lesson_by_index]
    returns without an error and changes nothing; for every index inside, it
    selects the lesson at that position, shows its text, and starts a fresh
    session on it. *)
Theorem C6_load_lesson_by_index (index : Z) (app : TypingApp) :
  (index < 0 \/ len (lessons app) <= index ->
   load_lesson_by_index index app = Ok app)
  /\ (0 <= index < len (lessons app) ->
      exists lesson app',
        nth_error (lessons app) (Z.to_nat index) = Some lesson
        /\ load_lesson_by_index index app = Ok app'
        /\ lessons app' = lessons app
        /\ current_lesson_index app' = index
        /\ selected_lesson app' = Some lesson
        /\ lesson_text_label app' = content lesson
        /\ typed_text app' = {| buffer := []; tags := [] |}
        /\ user_started_typing app' = false
        /\ start_time app' = None).
Proof.
  split.
  - apply load_lesson_by_index_out_of_range.
  - intros Hin.
    destruct (load_lesson_by_index_in_range index app Hin) as (lesson & Hn & Hload).
    exists lesson. eexists. split; [exact Hn|]. split; [exact Hload|].
    repeat split.
Qed.

Lemma C6_load_lesson_by_index_witness :
  load_lesson_by_index 5 app_1 = Ok app_1
  /\ exists app',
       load_lesson_by_index 1 app_1 = Ok app'
       /\ selected_lesson app' = Some lesson_2
       /\ user_started_typing app' = false.
Proof.
  split.
  - apply (proj1 (C6_load_lesson_by_index 5 app_1)). right. vm_compute. discriminate.
  - destruct (proj2 (C6_load_lesson_by_index 1 app_1))
      as (lesson & app' & Hn & Hload & _ & _ & Hsel & _ & _ & Hstarted & _).
    + vm_compute. split; [discriminate | reflexivity].
    + exists app'. split; [exact Hload|]. split; [|exact Hstarted].
      rewrite Hsel. f_equal.
      vm_compute in Hn. now injection Hn as <-.
Defined.

(** ** Advancing to the next lesson *)

Lemma close_results_and_next_last (app : TypingApp) :
  len (lessons app) <= current_lesson_index app + 1 ->
  close_results_and_next app
  = Ok (set_windows (tl (result_windows app)) (S (finished_windows app)) app).
Proof.
  intros Hlast. unfold close_results_and_next.
  cbn [set_windows current_lesson_index lessons].
  destruct (Z.ltb_spec (current_lesson_index app + 1) (len (lessons app))); [lia|].
  reflexivity.
Qed.

Lemma close_results_and_next_advances (app : TypingApp) :
  0 <= current_lesson_index app ->
  current_lesson_index app + 1 < len (lessons app) ->
  exists lesson app',
    nth_error (lessons app) (Z.to_nat (current_lesson_index app + 1)) = Some lesson
    /\ close_results_and_next app = Ok app'
    /\ lessons app' = lessons app
    /\ finished_windows app' = finished_windows app
    /\ current_lesson_index app' = current_lesson_index app + 1
    /\ selected_lesson app' = Some lesson
    /\ typed_text app' = {| buffer := []; tags := [] |}
    /\ user_started_typing app' = false
    /\ start_time app' = None.
Proof.
  intros Hidx Hnext.
  set (closed := set_windows (tl (result_windows app)) (finished_windows app) app).
  destruct (load_lesson_by_index_in_range (current_lesson_index app + 1) closed)
    as (lesson & Hn & Hload).
  { cbn [closed set_windows lessons]. lia. }
  exists lesson. eexists. split; [exact Hn|]. split.
  - unfold close_results_and_next. fold closed.
    cbn [closed set_windows current_lesson_index lessons].
    destruct (Z.ltb_spec (current_lesson_index app + 1) (len (lessons app))); [|lia].
    exact Hload.
  - repeat split.
Qed.

(** C9: when the timer of the results popup fires on the last lesson
    ([current_lesson_index + 1 >= count]) the "All Lessons Complete" window is
    shown and nothing of the session changes: no lesson is loaded.  On any
    earlier lesson the lesson at [current_lesson_index + 1] is loaded, with a
    fresh session. *)
Theorem C9_close_results_and_next (app : TypingApp) :
  0 <= current_lesson_index app ->
  (len (lessons app) <= current_lesson_index app + 1 ->
   exists app',
     close_results_and_next app = Ok app'
     /\ finished_windows app' = S (finished_windows app)
     /\ current_lesson_index app' = current_lesson_index app
     /\ selected_lesson app' = selected_lesson app
     /\ typed_text app' = typed_text app
     /\ user_started_typing app' = user_started_typing app
     /\ start_time app' = start_time app)
  /\ (current_lesson_index app + 1 < len (lessons app) ->
      exists lesson app',
        nth_error (lessons app) (Z.to_nat (current_lesson_index app + 1)) = Some lesson
        /\ close_results_and_next app = Ok app'
        /\ finished_windows app' = finished_windows app
        /\ current_lesson_index app' = current_lesson_index app + 1
        /\ selected_lesson app' = Some lesson
        /\ typed_text app' = {| buffer := []; tags := [] |}
        /\ user_started_typing app' = false
        /\ start_time app' = None).
Proof.
  intros Hidx. split.
  - intros Hlast. eexists.
    split; [apply close_results_and_next_last, Hlast|]. repeat split.
  - intros Hnext.
    destruct (close_results_and_next_advances app Hidx Hnext)
      as (lesson & app' & Hn & Hrun & _ & Hfin & Hcur & Hsel & Htxt & Hst & Htime).
    exists lesson, app'. repeat split; assumption.
Qed.

Lemma C9_close_results_and_next_witness :
  (exists app',
      close_results_and_next app_1 = Ok app'
      /\ current_lesson_index app' = 1
      /\ selected_lesson app' = Some lesson_2)
  /\ (exists app',
         close_results_and_next (new_app [lesson_1]) = Ok app'
         /\ finished_windows app' = 1%nat
         /\ current_lesson_index app' = 0).
Proof.
  split.
  - destruct (C9_close_results_and_next app_1) as [_ Hnext].
    { vm_compute. discriminate. }
    destruct Hnext as (lesson & app' & Hn & Hrun & _ & Hidx & Hsel & _).
    { vm_compute. reflexivity. }
    exists app'. split; [exact Hrun|]. split; [exact Hidx|].
    rewrite Hsel. vm_compute in Hn. now injection Hn as <-.
  - destruct (C9_close_results_and_next (new_app [lesson_1])) as [Hlast _].
    { vm_compute. discriminate. }
    destruct Hlast as (app' & Hrun & Hfin & Hidx & _).
    { vm_compute. discriminate. }
    exists app'. split; [exact Hrun|]. split; [exact Hfin | exact Hidx].
Defined.

(** ** The lesson catalog *)

Lemma TypingApp_init_nonempty (ls : list Lesson) (first : Lesson) (others : list Lesson) :
  ls = first :: others ->
  exists app,
    load_lesson_by_index 0 (new_app ls) = Ok app
    /\ lessons app = ls
    /\ selected_lesson app = Some first
    /\ current_lesson_index app = 0.
Proof.
  intros ->.
  destruct (load_lesson_by_index_in_range 0 (new_app (first :: others)))
    as (lesson & Hn & Hload).
  { cbn [new_app lessons]. unfold len. cbn [List.length]. lia. }
  cbn in Hn. injection Hn as <-.
  eexists. split; [exact Hload|]. repeat split.
Qed.

(** C7: when [lessons.json] is absent, or holds no [lessons] key or an empty
    list, [load_lessons] gives the empty list and the application starts on a
    catalog of one lesson, the placeholder with id 1, title
    "No Lessons Found" and content "Please check lessons.json", which it
    selects.  Whatever the file holds, an application that starts has a
    catalog that is not empty. *)
Theorem C7_fallback_catalog (LESSONS_FILE : file lessons_doc) :
  (LESSONS_FILE = Absent
   \/ LESSONS_FILE = Parsed {| doc_lessons := None |}
   \/ LESSONS_FILE = Parsed {| doc_lessons := Some [] |} ->
   load_lessons LESSONS_FILE = Ok []
   /\ exists app,
        TypingApp_init LESSONS_FILE = Ok app
        /\ lessons app = [placeholder_lesson]
        /\ selected_lesson app = Some placeholder_lesson
        /\ lesson_id placeholder_lesson = 1
        /\ title placeholder_lesson = str_of "No Lessons Found"
        /\ content placeholder_lesson = str_of "Please check lessons.json")
  /\ (forall app, TypingApp_init LESSONS_FILE = Ok app -> lessons app <> []).
Proof.
  split.
  - intros Hempty.
    assert (load_lessons LESSONS_FILE = Ok []) as Hload
        by (destruct Hempty as [-> | [-> | ->]]; reflexivity).
    split; [exact Hload|].
    unfold TypingApp_init. rewrite Hload. cbn [bind].
    destruct (TypingApp_init_nonempty [placeholder_lesson] placeholder_lesson [] eq_refl)
      as (app & Hinit & Hls & Hsel & _).
    exists app. repeat split; assumption.
  - intros app. unfold TypingApp_init.
    destruct (load_lessons LESSONS_FILE) as [ls|e]; cbn [bind]; [|discriminate].
    destruct ls as [|first others].
    + destruct (TypingApp_init_nonempty [placeholder_lesson] placeholder_lesson [] eq_refl)
        as (app' & Hinit & Hls & _).
      rewrite Hinit. intros [= <-]. rewrite Hls. discriminate.
    + destruct (TypingApp_init_nonempty (first :: others) first others eq_refl)
        as (app' & Hinit & Hls & _).
      rewrite Hinit. intros [= <-]. rewrite Hls. discriminate.
Qed.

Lemma C7_fallback_catalog_witness :
  (exists app,
      TypingApp_init Absent = Ok app /\ lessons app = [placeholder_lesson])
  /\ lessons app_0 <> [].
Proof.
  split.
  - destruct (proj1 (C7_fallback_catalog Absent) (or_introl eq_refl))
      as (_ & app & Hinit & Hls & _).
    exists app. split; assumption.
  - apply (proj2 (C7_fallback_catalog two_lessons) app_0). vm_compute. reflexivity.
Defined.

(** ** Corrupt files *)

(** C5: an exception raised while a JSON file is read, other than
    [FileNotFoundError], leaves [load_lessons] and [save_progress] as it is; in
    particular content that is not JSON makes [load_lessons], the start of the
    application, [save_progress] and a submit raise [JSONDecodeError], an error
    other than the one for a missing file, and neither an empty catalog nor a
    rewritten log is produced. *)
Theorem C5_corrupt_data_is_surfaced :
  (forall (f : file lessons_doc) e,
      read_json f = Raise e -> is_FileNotFoundError e = false ->
      load_lessons f = Raise e /\ TypingApp_init f = Raise e)
  /\ (forall (f : file progress_doc) e r,
         read_json f = Raise e -> is_FileNotFoundError e = false ->
         save_progress r f = Raise e)
  /\ read_json (@Malformed lessons_doc) = Raise JSONDecodeError
  /\ read_json (@Malformed progress_doc) = Raise JSONDecodeError
  /\ is_FileNotFoundError JSONDecodeError = false
  /\ load_lessons Malformed = Raise JSONDecodeError
  /\ load_lessons Malformed <> Ok []
  /\ TypingApp_init Malformed = Raise JSONDecodeError
  /\ (forall r, save_progress r Malformed = Raise JSONDecodeError)
  /\ (forall now stamp app,
         typing_started app ->
         on_submit now stamp Malformed app = Raise JSONDecodeError).
Proof.
  assert (forall (f : file progress_doc) e r,
             read_json f = Raise e -> is_FileNotFoundError e = false ->
             save_progress r f = Raise e) as Hsave.
  { intros f e r Hread Hkind. unfold save_progress, try_except.
    rewrite Hread, Hkind. reflexivity. }
  assert (forall (f : file lessons_doc) e,
             read_json f = Raise e -> is_FileNotFoundError e = false ->
             load_lessons f = Raise e) as Hload.
  { intros f e Hread Hkind. unfold load_lessons, try_except.
    rewrite Hread. cbn [bind]. now rewrite Hkind. }
  split; [|split; [exact Hsave|]].
  - intros f e Hread Hkind. split; [now apply Hload|].
    unfold TypingApp_init. now rewrite (Hload f e Hread Hkind).
  - do 5 (split; [reflexivity || discriminate|]).
    split; [reflexivity|]. split; [intros r; now apply Hsave|].
    intros now stamp app (Hstarted & (lesson & Hsel) & (t & Hstart)).
    unfold on_submit. rewrite Hsel, Hstarted, Hstart. cbn [negb bind].
    rewrite calculate_wpm_and_accuracy_spec. cbn [bind].
    now rewrite (Hsave Malformed JSONDecodeError).
Qed.

Lemma C5_corrupt_data_is_surfaced_witness :
  load_lessons Malformed = Raise JSONDecodeError
  /\ save_progress (sample_record 1) Malformed = Raise JSONDecodeError
  /\ on_submit (Binary64.lit 1060) stamp_1 Malformed app_1 = Raise JSONDecodeError.
Proof.
  destruct C5_corrupt_data_is_surfaced as (Hload & Hsave & _ & _ & _ & _ & _ & _ & _ & Hsubmit).
  split; [|split].
  - apply (Hload Malformed JSONDecodeError); reflexivity.
  - apply (Hsave Malformed JSONDecodeError); reflexivity.
  - apply Hsubmit. vm_compute.
    split; [reflexivity|]. split; eexists; reflexivity.
Defined.

(** ** The progress log *)

Lemma save_progress_usable (r : AttemptRecord) (f : file progress_doc) :
  usable f ->
  save_progress r f = Ok (Parsed {| doc_attempts := Some (records f ++ [r]) |}).
Proof.
  destruct f as [| |[[l|]]]; cbn; intros H; try contradiction; reflexivity.
Qed.

Lemma save_all_usable (rs : list AttemptRecord) :
  forall f, usable f ->
    exists f', save_all rs f = Ok f' /\ usable f' /\ records f' = records f ++ rs.
Proof.
  induction rs as [|r rs IH]; intros f Hf.
  - exists f. cbn. now rewrite app_nil_r.
  - cbn [save_all]. rewrite (save_progress_usable r f Hf). cbn [bind].
    destruct (IH (Parsed {| doc_attempts := Some (records f ++ [r]) |}) I)
      as (f' & Hrun & Hus & Hrec).
    exists f'. split; [exact Hrun|]. split; [exact Hus|].
    rewrite Hrec. cbn [records]. now rewrite <- app_assoc.
Qed.

(** C8: [save_progress] called once for each of [n] records, on a log that
    is absent or holds no attempt, leaves a log holding exactly those records
    in call order; on a log that already holds records, these stay as they
    are, in place, before the new ones. *)
Theorem C8_append_only_log (rs : list AttemptRecord) :
  (exists f', save_all rs Absent = Ok f' /\ records f' = rs)
  /\ (exists f', save_all rs (Parsed {| doc_attempts := Some [] |}) = Ok f'
                 /\ records f' = rs)
  /\ (forall old,
         exists f', save_all rs (Parsed {| doc_attempts := Some old |}) = Ok f'
                    /\ records f' = old ++ rs
                    /\ List.length (records f') = (List.length old + List.length rs)%nat
                    /\ (forall i r, nth_error old i = Some r ->
                                    nth_error (records f') i = Some r)).
Proof.
  split; [|split].
  - destruct (save_all_usable rs Absent I) as (f' & Hrun & _ & Hrec).
    exists f'. now split.
  - destruct (save_all_usable rs (Parsed {| doc_attempts := Some [] |}) I)
      as (f' & Hrun & _ & Hrec).
    exists f'. now split.
  - intros old.
    destruct (save_all_usable rs (Parsed {| doc_attempts := Some old |}) I)
      as (f' & Hrun & _ & Hrec).
    cbn [records] in Hrec.
    exists f'. split; [exact Hrun|]. split; [exact Hrec|]. split.
    + now rewrite Hrec, length_app.
    + intros i r Hi. rewrite Hrec, nth_error_app1; [exact Hi|].
      apply nth_error_Some. rewrite Hi. discriminate.
Qed.

Lemma C8_append_only_log_witness :
  exists f',
    save_all [sample_record 2; sample_record 3]
             (Parsed {| doc_attempts := Some [sample_record 1] |}) = Ok f'
    /\ records f' = [sample_record 1; sample_record 2; sample_record 3]
    /\ nth_error (records f') 0 = Some (sample_record 1).
Proof.
  destruct (C8_append_only_log [sample_record 2; sample_record 3])
    as (_ & _ & Hold).
  destruct (Hold [sample_record 1]) as (f' & Hrun & Hrec & _ & Hkept).
  exists f'. split; [exact Hrun|]. split; [exact Hrec|].
  apply Hkept. reflexivity.
Defined.

(** ** Submitting *)

Lemma on_submit_not_started (now : Binary64.float) (stamp : str)
      (f : file progress_doc) (app : TypingApp) :
  user_started_typing app = false ->
  on_submit now stamp f app = Ok (f, app).
Proof.
  intros H. unfold on_submit. rewrite H.
  now destruct (selected_lesson app).
Qed.

Lemma on_submit_started (now : Binary64.float) (stamp : str)
      (f : file progress_doc) (app : TypingApp) (lesson : Lesson) (t : Binary64.float) :
  user_started_typing app = true ->
  selected_lesson app = Some lesson ->
  start_time app = Some t ->
  usable f ->
  on_submit now stamp f app
  = Ok (Parsed {| doc_attempts := Some (records f ++ [attempt_of now stamp app lesson t]) |},
        show_results (Spec.wpm (content lesson) t now)
                     (Spec.accuracy (rstrip_newlines (buffer (typed_text app) ++ [newline]))
                                    (content lesson))
                     (Binary64.sub now t) app).
Proof.
  intros Hstarted Hsel Hstart Hf. unfold on_submit.
  rewrite Hsel, Hstarted, Hstart. cbn [negb bind].
  rewrite calculate_wpm_and_accuracy_spec. cbn [bind].
  rewrite (save_progress_usable _ f Hf). reflexivity.
Qed.

Lemma step_submit_started (now : Binary64.float) (stamp : str) (w : world) :
  typing_started (app_state w) -> usable (progress_file w) ->
  exists r w',
    step (Submit now stamp) w = Ok w'
    /\ timestamp r = stamp
    /\ records (progress_file w') = records (progress_file w) ++ [r]
    /\ usable (progress_file w')
    /\ typing_started (app_state w')
    /\ result_windows (app_state w') <> []
    /\ lessons (app_state w') = lessons (app_state w)
    /\ current_lesson_index (app_state w') = current_lesson_index (app_state w).
Proof.
  intros (Hstarted & (lesson & Hsel) & (t & Hstart)) Hf.
  exists (attempt_of now stamp (app_state w) lesson t). eexists.
  split.
  - cbn [step]. rewrite (on_submit_started now stamp _ _ lesson t Hstarted Hsel Hstart Hf).
    cbn [bind]. reflexivity.
  - cbn [progress_file app_state records]. split; [reflexivity|]. split; [reflexivity|].
    split; [exact I|]. split.
    + unfold typing_started, show_results.
      cbn [set_windows user_started_typing selected_lesson start_time].
      split; [exact Hstarted|]. split; eauto.
    + split; [|split; reflexivity].
      unfold show_results. cbn [set_windows result_windows].
      intros Hnil. apply app_eq_nil in Hnil. destruct Hnil as [_ Hnil]. discriminate.
Qed.

(** C1, as stated, fails: after one keystroke, two submits in a row (no
    keystroke and no lesson load between them) store two records. *)
Lemma C1_second_submit_appends_again :
  exists w1 w2,
    world_1 = Ok w1
    /\ user_started_typing (app_state w1) = true
    /\ records (progress_file w1) = []
    /\ run [Submit (Binary64.lit 1060) stamp_1; Submit (Binary64.lit 1061) stamp_2] w1 = Ok w2
    /\ List.map timestamp (records (progress_file w2)) = [stamp_1; stamp_2]
    /\ List.length (records (progress_file w2)) <> 1%nat.
Proof.
  do 2 eexists. split; [vm_compute; reflexivity|].
  split; [reflexivity|]. split; [reflexivity|].
  split; [vm_compute; reflexivity|].
  split; [reflexivity|]. cbn. discriminate.
Qed.

(** C1, amended: in a session in which a key has been pressed, every submit
    stores one record and leaves the session started, so two submits in a row
    store two records.  The second submit is a no-op only when the next lesson
    has been loaded in between, as the results timer does on any lesson but
    the last: then the two submits store exactly one record.  In general a
    submit with no key pressed since the lesson was loaded stores nothing. *)
Theorem C1_submit_twice (w : world) (now1 now2 : Binary64.float) (stamp1 stamp2 : str) :
  typing_started (app_state w) ->
  usable (progress_file w) ->
  (exists r1 r2 w2,
      run [Submit now1 stamp1; Submit now2 stamp2] w = Ok w2
      /\ timestamp r1 = stamp1 /\ timestamp r2 = stamp2
      /\ records (progress_file w2) = records (progress_file w) ++ [r1; r2])
  /\ (0 <= current_lesson_index (app_state w) ->
      current_lesson_index (app_state w) + 1 < len (lessons (app_state w)) ->
      exists r1 w3,
        run [Submit now1 stamp1; TimerFires; Submit now2 stamp2] w = Ok w3
        /\ timestamp r1 = stamp1
        /\ records (progress_file w3) = records (progress_file w) ++ [r1]
        /\ user_started_typing (app_state w3) = false)
  /\ (forall f app,
         user_started_typing app = false ->
         on_submit now2 stamp2 f app = Ok (f, app)).
Proof.
  intros Hstarted Hf.
  destruct (step_submit_started now1 stamp1 w Hstarted Hf)
    as (r1 & w1 & Hstep1 & Hts1 & Hrec1 & Hf1 & Hstarted1 & Hwin1 & Hls1 & Hcur1).
  split; [|split].
  - destruct (step_submit_started now2 stamp2 w1 Hstarted1 Hf1)
      as (r2 & w2 & Hstep2 & Hts2 & Hrec2 & _).
    exists r1, r2, w2. cbn [run]. rewrite Hstep1. cbn [bind]. rewrite Hstep2. cbn [bind].
    split; [reflexivity|]. split; [exact Hts1|]. split; [exact Hts2|].
    rewrite Hrec2, Hrec1, <- app_assoc. reflexivity.
  - intros Hidx Hnext.
    destruct (close_results_and_next_advances (app_state w1))
      as (lesson & app2 & _ & Hclose & _ & _ & _ & _ & _ & Hfresh & _).
    { now rewrite Hcur1. }
    { now rewrite Hcur1, Hls1. }
    exists r1. eexists. cbn [run]. rewrite Hstep1. cbn [bind step].
    destruct (result_windows (app_state w1)) as [|x xs] eqn:Hwin; [contradiction|].
    rewrite Hclose. cbn [bind app_state progress_file].
    rewrite (on_submit_not_started now2 stamp2 _ _ Hfresh). cbn [bind].
    split; [reflexivity|]. split; [exact Hts1|].
    cbn [progress_file app_state]. split; [exact Hrec1 | exact Hfresh].
  - intros f app. apply on_submit_not_started.
Qed.

Lemma C1_submit_twice_witness :
  (exists r1 r2 w2,
      run [Submit (Binary64.lit 1060) stamp_1; Submit (Binary64.lit 1061) stamp_2]
          {| progress_file := Absent; app_state := app_1 |} = Ok w2
      /\ records (progress_file w2) = [r1; r2])
  /\ (exists r1 w3,
         run [Submit (Binary64.lit 1060) stamp_1; TimerFires;
              Submit (Binary64.lit 1061) stamp_2]
             {| progress_file := Absent; app_state := app_1 |} = Ok w3
         /\ records (progress_file w3) = [r1]).
Proof.
  destruct (C1_submit_twice {| progress_file := Absent; app_state := app_1 |}
              (Binary64.lit 1060) (Binary64.lit 1061) stamp_1 stamp_2)
    as (Htwo & Htimer & _).
  { vm_compute. split; [reflexivity|]. split; eexists; reflexivity. }
  { exact I. }
  split.
  - destruct Htwo as (r1 & r2 & w2 & Hrun & _ & _ & Hrec).
    exists r1, r2, w2. split; [exact Hrun | exact Hrec].
  - destruct Htimer as (r1 & w3 & Hrun & _ & Hrec & _).
    + vm_compute. discriminate.
    + vm_compute. reflexivity.
    + exists r1, w3. split; [exact Hrun | exact Hrec].
Defined.

(** ** Accuracy and words per minute *)

(** C2: the error count of [calculate_wpm_and_accuracy] is the number of
    indices within the reference where the typed character differs, plus
    [len(typed) - len(reference)] when the typed text is longer (the batch
    added at the break counts every extra character once), plus
    [len(reference) - len(typed)] when it is shorter; the accuracy returned is
    [round(max(0, len(reference) - errors) / len(reference) * 100, 2)] for a
    reference that is not empty and [0] for an empty one.  [abc] typed against
    [abd] has 1 error and accuracy 66.67. *)
Theorem C2_errors_and_accuracy (typed reference : str)
        (start_time end_time : Binary64.float) :
  count_errors typed reference = Ok (Spec.errors typed reference)
  /\ (exists w,
         calculate_wpm_and_accuracy typed reference start_time end_time
         = Ok (w, Spec.accuracy typed reference))
  /\ count_errors (str_of "abc") (str_of "abd") = Ok 1
  /\ (exists w,
         calculate_wpm_and_accuracy (str_of "abc") (str_of "abd") start_time end_time
         = Ok (w, PFloat (Binary64.lit (6667 # 100)))).
Proof.
  split; [apply count_errors_spec|].
  split; [eexists; apply calculate_wpm_and_accuracy_spec|].
  split; [reflexivity|].
  eexists. rewrite calculate_wpm_and_accuracy_spec.
  assert (Spec.accuracy (str_of "abc") (str_of "abd")
          = PFloat (Binary64.lit (6667 # 100))) as ->
      by (vm_compute; reflexivity).
  reflexivity.
Qed.

Lemma lit_60_finite : exists m e, Binary64.lit 60 = S754_finite false m e.
Proof. do 2 eexists. vm_compute. reflexivity. Qed.

Lemma zero_elapsed_minutes (start_time end_time : Binary64.float) :
  Binary64.is_zero (Binary64.sub end_time start_time) = true ->
  Binary64.gt_zero (Spec.elapsed_minutes start_time end_time) = false.
Proof.
  unfold Spec.elapsed_minutes.
  destruct lit_60_finite as (m & e & ->).
  destruct (Binary64.sub end_time start_time); cbn; congruence.
Qed.

Lemma sub_self_zero (s : bool) (m : positive) (e : Z) :
  Binary64.sub (S754_finite s m e) (S754_finite s m e) = S754_zero false.
Proof.
  unfold Binary64.sub.
  assert (Qeq_bool (Binary64.F2Q (S754_finite s m e) - Binary64.F2Q (S754_finite s m e)) 0
          = true) as ->; [|reflexivity].
  apply Qeq_bool_iff. ring.
Qed.

(** C4: the words per minute returned are the number of whitespace-delimited
    tokens of the reference divided by the elapsed minutes and rounded to 2
    decimals when both are positive, and [0] otherwise.  A reference of 3
    words with 60 seconds elapsed gives 3.0; no elapsed time gives 0 whatever
    the reference. *)
Theorem C4_words_per_minute (typed reference : str)
        (start_time end_time : Binary64.float) :
  len (split reference) = Spec.word_count reference
  /\ (exists a,
         calculate_wpm_and_accuracy typed reference start_time end_time
         = Ok (Spec.wpm reference start_time end_time, a))
  /\ (Spec.word_count reference = 3 ->
      Binary64.sub end_time start_time = Binary64.lit 60 ->
      exists a,
        calculate_wpm_and_accuracy typed reference start_time end_time
        = Ok (PFloat (Binary64.lit 3), a))
  /\ (Binary64.is_zero (Binary64.sub end_time start_time) = true ->
      exists a,
        calculate_wpm_and_accuracy typed reference start_time end_time
        = Ok (PInt 0, a))
  /\ (forall s m e,
         exists a,
           calculate_wpm_and_accuracy typed reference
                                      (S754_finite s m e) (S754_finite s m e)
           = Ok (PInt 0, a)).
Proof.
  split; [apply split_word_count|].
  split; [eexists; apply calculate_wpm_and_accuracy_spec|].
  split; [|split].
  - intros Hwords Helapsed. eexists.
    rewrite calculate_wpm_and_accuracy_spec.
    assert (Spec.wpm reference start_time end_time = PFloat (Binary64.lit 3)) as ->;
      [|reflexivity].
    unfold Spec.wpm, Spec.elapsed_minutes. rewrite Hwords, Helapsed.
    vm_compute. reflexivity.
  - intros Hzero. eexists.
    rewrite calculate_wpm_and_accuracy_spec.
    unfold Spec.wpm. rewrite (zero_elapsed_minutes _ _ Hzero). reflexivity.
  - intros s m e. eexists.
    rewrite calculate_wpm_and_accuracy_spec.
    unfold Spec.wpm. rewrite zero_elapsed_minutes; [reflexivity|].
    now rewrite sub_self_zero.
Qed.

Lemma C4_words_per_minute_witness :
  (exists a,
      calculate_wpm_and_accuracy (str_of "a b") (str_of "a b c")
                                 (Binary64.lit 1000) (Binary64.lit 1060)
      = Ok (PFloat (Binary64.lit 3), a))
  /\ (exists a,
         calculate_wpm_and_accuracy (str_of "a b") (str_of "a b c")
                                    (Binary64.lit 1000) (Binary64.lit 1000)
         = Ok (PInt 0, a)).
Proof.
  split.
  - destruct (C4_words_per_minute (str_of "a b") (str_of "a b c")
                                  (Binary64.lit 1000) (Binary64.lit 1060))
      as (_ & _ & Hthree & _).
    apply Hthree; vm_compute; reflexivity.
  - destruct (C4_words_per_minute (str_of "a b") (str_of "a b c")
                                  (Binary64.lit 1000) (Binary64.lit 1000))
      as (_ & _ & _ & Hzero & _).
    apply Hzero. vm_compute. reflexivity.
Defined.

(** ** Rounding to nearest *)

Section Rounding.
Local Open Scope Q_scope.

Lemma round_half_even_cases (q : Q) :
  let f := (Qnum q / Zpos (Qden q))%Z in
  (Binary64.round_half_even q = f /\ (2 * (Qnum q mod Zpos (Qden q)) <= Zpos (Qden q))%Z)
  \/ (Binary64.round_half_even q = (f + 1)%Z /\ (Zpos (Qden q) <= 2 * (Qnum q mod Zpos (Qden q)))%Z).
Proof.
  intros f. unfold Binary64.round_half_even. fold f.
  destruct (Z.compare_spec (2 * (Qnum q mod Zpos (Qden q))) (Zpos (Qden q))) as [H|H|H].
  - destruct (Z.even f); [left | right]; split; (reflexivity || lia).
  - left. split; [reflexivity | lia].
  - right. split; [reflexivity | lia].
Qed.

Lemma round_half_even_upper (q : Q) :
  inject_Z (Binary64.round_half_even q) <= q + (1 # 2).
Proof.
  pose proof (Z.div_mod (Qnum q) (Zpos (Qden q)) ltac:(lia)) as Hdm.
  pose proof (Z.mod_pos_bound (Qnum q) (Zpos (Qden q)) ltac:(lia)) as Hr.
  destruct (round_half_even_cases q) as [[-> H]|[-> H]];
    destruct q as [n d]; unfold Qle, Qplus, inject_Z; cbn [Qnum Qden] in *; nia.
Qed.

Lemma round_half_even_lower (q : Q) :
  q - (1 # 2) <= inject_Z (Binary64.round_half_even q).
Proof.
  pose proof (Z.div_mod (Qnum q) (Zpos (Qden q)) ltac:(lia)) as Hdm.
  pose proof (Z.mod_pos_bound (Qnum q) (Zpos (Qden q)) ltac:(lia)) as Hr.
  destruct (round_half_even_cases q) as [[-> H]|[-> H]];
    destruct q as [n d]; unfold Qle, Qminus, Qplus, Qopp, inject_Z; cbn [Qnum Qden] in *; nia.
Qed.

Lemma round_half_even_ge (q : Q) (z : Z) :
  inject_Z z <= q -> (z <= Binary64.round_half_even q)%Z.
Proof.
  intros Hz.
  assert (z <= Qnum q / Zpos (Qden q))%Z as Hf.
  { apply Z.div_le_lower_bound; [lia|].
    destruct q as [n d]. unfold Qle, inject_Z in Hz. cbn [Qnum Qden] in *. lia. }
  destruct (round_half_even_cases q) as [[-> _]|[-> _]]; lia.
Qed.

Lemma round_half_even_le (q : Q) (z : Z) :
  q <= inject_Z z -> (Binary64.round_half_even q <= z)%Z.
Proof.
  intros Hz.
  pose proof (Z.div_mod (Qnum q) (Zpos (Qden q)) ltac:(lia)) as Hdm.
  pose proof (Z.mod_pos_bound (Qnum q) (Zpos (Qden q)) ltac:(lia)) as Hr.
  destruct (round_half_even_cases q) as [[-> H]|[-> H]];
    destruct q as [n d]; unfold Qle, inject_Z in Hz; cbn [Qnum Qden] in *; nia.
Qed.


Lemma pow2_nonneg_inject (z : Z) : (0 <= z)%Z -> 2 ^ z == inject_Z (2 ^ z).
Proof. intros Hz. now rewrite Zpower_Qpower. Qed.

Lemma pow2_pos (z : Z) : 0 < 2 ^ z.
Proof. apply Qpower_0_lt. reflexivity. Qed.

Lemma pow2_add (a b : Z) : 2 ^ (a + b) == 2 ^ a * 2 ^ b.
Proof. apply Qpower_plus. discriminate. Qed.

Lemma pow2_sub (a b : Z) : 2 ^ (a - b) == 2 ^ a / 2 ^ b.
Proof. apply Qpower_minus. discriminate. Qed.

Lemma pow2_le (a b : Z) : (a <= b)%Z -> 2 ^ a <= 2 ^ b.
Proof. intros H. apply Qpower_le_compat_l; [exact H | discriminate]. Qed.

Lemma pow2_lt_inv (a b : Z) : 2 ^ a < 2 ^ b -> (a < b)%Z.
Proof.
  intros H. destruct (Z.lt_ge_cases a b) as [Hlt|Hge]; [exact Hlt|].
  apply pow2_le in Hge. lra.
Qed.

Lemma ilog2_spec (q : Q) :
  0 < q -> 2 ^ Binary64.ilog2 q <= q /\ q < 2 ^ (Binary64.ilog2 q + 1).
Proof.
  intros Hq.
  assert (0 < Qnum q)%Z as Hn by (destruct q; unfold Qlt in Hq; cbn in *; lia).
  pose proof (Z.log2_spec (Qnum q) Hn) as [Hn1 Hn2].
  pose proof (Z.log2_spec (Zpos (Qden q)) ltac:(lia)) as [Hd1 Hd2].
  pose proof (Z.log2_nonneg (Qnum q)) as Hln.
  pose proof (Z.log2_nonneg (Zpos (Qden q))) as Hld.
  set (ln := Z.log2 (Qnum q)) in *. set (ld := Z.log2 (Zpos (Qden q))) in *.
  assert (q < 2 ^ (ln - ld + 1)) as Hupper.
  { replace (ln - ld + 1)%Z with (ln + 1 - ld)%Z by lia.
    rewrite pow2_sub. apply Qlt_shift_div_l; [apply pow2_pos|].
    rewrite !pow2_nonneg_inject by lia.
    replace (Z.succ ln) with (ln + 1)%Z in Hn2 by lia.
    assert (0 < 2 ^ ld)%Z by (apply Z.pow_pos_nonneg; lia).
    destruct q as [n d]. unfold Qlt, Qmult, inject_Z. cbn [Qnum Qden] in *. nia. }
  assert (2 ^ (ln - ld - 1) <= q) as Hlower.
  { replace (ln - ld - 1)%Z with (ln - (ld + 1))%Z by lia.
    rewrite pow2_sub. apply Qle_shift_div_r; [apply pow2_pos|].
    rewrite !pow2_nonneg_inject by lia.
    replace (Z.succ ld) with (ld + 1)%Z in Hd2 by lia.
    assert (0 < 2 ^ ln)%Z by (apply Z.pow_pos_nonneg; lia).
    destruct q as [n d]. unfold Qle, Qmult, inject_Z. cbn [Qnum Qden] in *. nia. }
  unfold Binary64.ilog2. fold ln. fold ld.
  destruct (Qle_bool (2 ^ (ln - ld)) q) eqn:Hb.
  - apply Qle_bool_iff in Hb. split; assumption.
  - assert (~ 2 ^ (ln - ld) <= q) as Hnot
        by (intros H; apply Qle_bool_iff in H; congruence).
    split; [exact Hlower|].
    replace (ln - ld - 1 + 1)%Z with (ln - ld)%Z by lia. lra.
Qed.


(** In the normal range the rounded value is a float, not below any power of
    two its argument is not below, and above the argument by at most the unit
    roundoff. *)
Lemma round_nearest_normal (s : bool) (a : Q) (k : Z) :
  (-1022 <= k)%Z -> 2 ^ k <= a -> a < 2 ^ 1023 ->
  exists m e,
    Binary64.round_nearest s a = S754_finite s m e
    /\ 2 ^ k <= inject_Z (Zpos m) * 2 ^ e
    /\ inject_Z (Zpos m) * 2 ^ e <= a * (1 + Binary64.unit_roundoff).
Proof.
  intros Hk Hlo Hhi.
  pose proof (pow2_pos k) as Hkpos.
  assert (0 < a) as Ha by lra.
  destruct (ilog2_spec a Ha) as [He0 He1].
  set (e0 := Binary64.ilog2 a) in *.
  assert (k <= e0)%Z as Hke by (assert (k < e0 + 1)%Z by (apply pow2_lt_inv; lra); lia).
  assert (e0 <= 1022)%Z as He by (assert (e0 < 1023)%Z by (apply pow2_lt_inv; lra); lia).
  pose proof (pow2_pos (e0 - 52)) as Hepos.
  set (x := a / 2 ^ (e0 - 52)).
  assert (a == x * 2 ^ (e0 - 52)) as Hax by (unfold x; field; lra).
  assert (2 ^ e0 == inject_Z (2 ^ 52) * 2 ^ (e0 - 52)) as Hp0.
  { rewrite <- pow2_nonneg_inject by lia. rewrite <- pow2_add. now replace (52 + (e0 - 52))%Z with e0 by lia. }
  assert (2 ^ (e0 + 1) == inject_Z (2 ^ 53) * 2 ^ (e0 - 52)) as Hp1.
  { rewrite <- pow2_nonneg_inject by lia. rewrite <- pow2_add. now replace (53 + (e0 - 52))%Z with (e0 + 1)%Z by lia. }
  assert (inject_Z (2 ^ 52) <= x) as Hx0.
  { apply Qle_shift_div_l; [exact Hepos|]. rewrite <- Hp0. exact He0. }
  assert (x <= inject_Z (2 ^ 53)) as Hx1.
  { apply Qle_shift_div_r; [exact Hepos|]. rewrite <- Hp1. lra. }
  pose proof (round_half_even_ge x _ Hx0) as Hm0.
  pose proof (round_half_even_le x _ Hx1) as Hm1.
  pose proof (round_half_even_upper x) as Hup.
  set (m0 := Binary64.round_half_even x) in *.
  assert (2 ^ k <= inject_Z m0 * 2 ^ (e0 - 52)) as Hlower.
  { apply Qle_trans with (2 ^ e0); [now apply pow2_le|].
    rewrite Hp0. apply Qmult_le_compat_r; [|lra].
    rewrite <- Zle_Qle. exact Hm0. }
  assert (inject_Z m0 * 2 ^ (e0 - 52) <= a * (1 + Binary64.unit_roundoff)) as Hupper.
  { assert (2 ^ (e0 - 52) == 2 ^ e0 * (1 # 4503599627370496)) as Hsplit.
    { unfold Zminus. rewrite pow2_add. apply Qmult_comp; [reflexivity|]. reflexivity. }
    apply Qle_trans with ((x + (1 # 2)) * 2 ^ (e0 - 52)).
    - apply Qmult_le_compat_r; [exact Hup | lra].
    - rewrite Qmult_plus_distr_l, <- Hax.
      unfold Binary64.unit_roundoff. rewrite Hsplit.
      assert ((1 # 2) * (2 ^ e0 * (1 # 4503599627370496)) == 2 ^ e0 * (1 # 9007199254740992)) as ->
        by (field).
      assert (2 ^ e0 * (1 # 9007199254740992) <= a * (1 # 9007199254740992)) by
          (apply Qmult_le_compat_r; [exact He0 | discriminate]).
      lra. }
  unfold Binary64.round_nearest.
  assert (Qle_bool a 0 = false) as ->.
  { destruct (Qle_bool a 0) eqn:Hb; [|reflexivity]. apply Qle_bool_iff in Hb. lra. }
  fold e0. rewrite Z.max_l by lia. fold x. fold m0.
  destruct (Z.eqb_spec m0 (2 ^ 53)) as [Heq|Hne].
  - change (2 ^ 52)%Z with (Zpos 4503599627370496).
    assert ((e0 - 52 + 1 <=? 971)%Z = true) as -> by (apply Z.leb_le; lia).
    do 2 eexists. split; [reflexivity|].
    assert (inject_Z (Zpos 4503599627370496) * 2 ^ (e0 - 52 + 1)
            == inject_Z m0 * 2 ^ (e0 - 52)) as Hv.
    { rewrite Heq, pow2_add.
      change (inject_Z (2 ^ 53)) with (inject_Z 9007199254740992).
      change (2 ^ 1) with 2. unfold inject_Z. field. }
    rewrite Hv. split; assumption.
  - destruct m0 as [|p|p] eqn:Hm; try (exfalso; cbn in Hm0; lia).
    assert ((e0 - 52 <=? 971)%Z = true) as -> by (apply Z.leb_le; lia).
    do 2 eexists. split; [reflexivity|]. split; assumption.
Qed.


Lemma of_Z_100 :
  exists m e, Binary64.of_Z 100 = S754_finite false m e
              /\ inject_Z (Zpos m) * 2 ^ e == 100.
Proof. do 2 eexists. split; vm_compute; reflexivity. Qed.

Lemma lit_100 :
  exists m e, Binary64.lit 100 = S754_finite false m e
              /\ inject_Z (Zpos m) * 2 ^ e == 100.
Proof. do 2 eexists. split; vm_compute; reflexivity. Qed.

Lemma ratio_bound (c t : Z) :
  (0 < c < t)%Z -> (t < 20000)%Z ->
  2 ^ (-15) <= inject_Z (Z.abs c) / inject_Z (Z.abs t)
  /\ inject_Z (Z.abs c) / inject_Z (Z.abs t) <= 19998 # 19999.
Proof.
  intros Hc Ht. rewrite !Z.abs_eq by lia.
  assert (0 < inject_Z t) as Htq by (rewrite <- (Zlt_Qlt 0); lia).
  split.
  - apply Qle_shift_div_l; [exact Htq|].
    change (2 ^ (-15)) with (1 # 32768).
    unfold Qle, Qmult, inject_Z. cbn [Qnum Qden]. lia.
  - apply Qle_shift_div_r; [exact Htq|].
    unfold Qle, Qmult, inject_Z. cbn [Qnum Qden]. lia.
Qed.

(** With fewer than 20000 characters in the reference, one error or more
    keeps the rounded percentage below 100. *)
Lemma accuracy_below_100 (c t : Z) :
  (0 <= c < t)%Z -> (t < 20000)%Z ->
  Binary64.round_2 (Binary64.mul (Binary64.div_Z c t) (Binary64.of_Z 100))
  <> Binary64.lit 100.
Proof.
  intros Hc Ht.
  destruct lit_100 as (m100 & e100 & Hlit & Hv100). rewrite Hlit.
  destruct of_Z_100 as (mh & eh & Hof & Hvh). rewrite Hof.
  unfold Binary64.div_Z.
  assert ((c <? 0)%Z = false) as -> by (apply Z.ltb_ge; lia).
  assert ((t <? 0)%Z = false) as -> by (apply Z.ltb_ge; lia).
  cbn [xorb].
  destruct (Z.eq_dec c 0) as [->|Hc0].
  - (* nothing right: 0.0 *)
    unfold Binary64.round_nearest at 1.
    assert (Qle_bool (inject_Z (Z.abs 0) / inject_Z (Z.abs t)) 0 = true) as ->.
    { apply Qle_bool_iff. cbn [Z.abs]. unfold Qdiv. rewrite Qmult_0_l. apply Qle_refl. }
    cbn. discriminate.
  - destruct (ratio_bound c t ltac:(lia) Ht) as [Hr0 Hr1].
    set (a1 := inject_Z (Z.abs c) / inject_Z (Z.abs t)) in *.
    destruct (round_nearest_normal false a1 (-15)) as (m1 & e1 & -> & Hl1 & Hu1);
      [lia | exact Hr0 | |].
    { apply Qle_lt_trans with (19998 # 19999); [exact Hr1|].
      apply Qlt_le_trans with (2 ^ 0); [reflexivity | apply pow2_le; lia]. }
    cbn [Binary64.mul Binary64.magnitude xorb].
    set (v1 := inject_Z (Zpos m1) * 2 ^ e1) in *.
    set (vh := inject_Z (Zpos mh) * 2 ^ eh) in *.
    change (2 ^ (-15)) with (1 # 32768) in Hl1, Hr0.
    unfold Binary64.unit_roundoff in Hu1.
    destruct (round_nearest_normal false (v1 * vh) (-15)) as (m2 & e2 & -> & Hl2 & Hu2);
      [lia | | |].
    { change (2 ^ (-15)) with (1 # 32768). rewrite Hvh. lra. }
    { apply Qlt_le_trans with (2 ^ 7); [|apply pow2_le; lia].
      change (2 ^ 7) with 128. rewrite Hvh. lra. }
    cbn [Binary64.round_2 Binary64.magnitude].
    set (v2 := inject_Z (Zpos m2) * 2 ^ e2) in *.
    unfold Binary64.unit_roundoff in Hu2. rewrite Hvh in Hu2.
    change (2 ^ (-15)) with (1 # 32768) in Hl2.
    assert (v2 * 100 < inject_Z 9999 + (1 # 2)) as Hv2.
    { change (inject_Z 9999) with 9999. lra. }
    assert (Binary64.round_half_even (v2 * 100) <= 9999)%Z as Hn.
    { pose proof (round_half_even_upper (v2 * 100)) as Hup.
      assert (inject_Z (Binary64.round_half_even (v2 * 100)) < inject_Z 10000) as Hlt
          by (change (inject_Z 10000) with 10000; change (inject_Z 9999) with 9999 in Hv2; lra).
      rewrite <- Zlt_Qlt in Hlt. lia. }
    assert (0 <= Binary64.round_half_even (v2 * 100))%Z as Hn0.
    { apply round_half_even_ge. change (inject_Z 0) with 0. lra. }
    set (n := Binary64.round_half_even (v2 * 100)) in *.
    destruct (Z.eq_dec n 0) as [Hz|Hnz].
    + rewrite Hz. vm_compute. discriminate.
    + assert (inject_Z 1 <= inject_Z n) as Hq1 by (rewrite <- Zle_Qle; lia).
      assert (inject_Z n <= inject_Z 9999) as Hq2 by (rewrite <- Zle_Qle; lia).
      change (inject_Z 1) with 1 in Hq1. change (inject_Z 9999) with 9999 in Hq2.
      destruct (round_nearest_normal false (inject_Z n / 100) (-7))
        as (m3 & e3 & -> & _ & Hu3); [lia | | |].
      { apply Qle_shift_div_l; [reflexivity|].
        change (2 ^ (-7)) with (1 # 128). lra. }
      { apply Qlt_le_trans with (2 ^ 7); [|apply pow2_le; lia].
        apply Qlt_shift_div_r; [reflexivity|]. change (2 ^ 7) with 128. lra. }
      intros Heq. injection Heq as Hm He. subst m3 e3.
      rewrite Hv100 in Hu3. unfold Binary64.unit_roundoff in Hu3.
      assert (inject_Z n / 100 <= 9999 / 100) as Hdiv.
      { apply Qle_shift_div_r; [reflexivity|].
        assert (9999 / 100 * 100 == 9999) as -> by reflexivity. exact Hq2. }
      assert (9999 / 100 == 9999 # 100) as Hfrac by reflexivity.
      lra.
Qed.

End Rounding.

(** ** Full accuracy *)

Lemma errors_nonneg (typed reference : str) : 0 <= Spec.errors typed reference.
Proof.
  unfold Spec.errors, Spec.mismatches.
  pose proof (len_nonneg (filter (Spec.differs_at typed reference)
                                 (seq 0 (List.length reference)))).
  destruct (Z.ltb_spec (len reference) (len typed)),
           (Z.ltb_spec (len typed) (len reference)); lia.
Qed.

Lemma errors_zero_eq (typed reference : str) :
  Spec.errors typed reference = 0 -> typed = reference.
Proof.
  unfold Spec.errors, Spec.mismatches. intros H.
  pose proof (len_nonneg (filter (Spec.differs_at typed reference)
                                 (seq 0 (List.length reference)))) as Hm.
  assert (List.length typed = List.length reference) as Hlen.
  { unfold len in *.
    destruct (Z.ltb_spec (Z.of_nat (List.length reference)) (Z.of_nat (List.length typed))),
             (Z.ltb_spec (Z.of_nat (List.length typed)) (Z.of_nat (List.length reference)));
      lia. }
  assert (filter (Spec.differs_at typed reference) (seq 0 (List.length reference)) = [])
    as Hnil.
  { apply length_zero_iff_nil. unfold len in *.
    destruct (Z.ltb_spec (Z.of_nat (List.length reference)) (Z.of_nat (List.length typed))),
             (Z.ltb_spec (Z.of_nat (List.length typed)) (Z.of_nat (List.length reference)));
      lia. }
  apply nth_error_ext. intros i.
  destruct (Nat.lt_ge_cases i (List.length reference)) as [Hi|Hi].
  - assert (Spec.differs_at typed reference i = false) as Hd.
    { destruct (Spec.differs_at typed reference i) eqn:E; [|reflexivity].
      assert (In i (filter (Spec.differs_at typed reference)
                           (seq 0 (List.length reference)))) as Hin
          by (apply filter_In; split; [apply in_seq; lia | exact E]).
      rewrite Hnil in Hin. contradiction. }
    unfold Spec.differs_at in Hd.
    destruct (nth_error typed i) as [a|] eqn:Ha;
      [|apply nth_error_None in Ha; lia].
    destruct (nth_error reference i) as [b|] eqn:Hb;
      [|apply nth_error_None in Hb; lia].
    apply negb_false_iff, N.eqb_eq in Hd. now subst.
  - rewrite (proj2 (nth_error_None typed i)) by lia.
    rewrite (proj2 (nth_error_None reference i)) by lia. reflexivity.
Qed.

Lemma long_typed_differs : long_typed <> long_reference.
Proof.
  intros H. apply (f_equal (@List.length char)) in H.
  unfold long_typed, long_reference in H. rewrite !repeat_length in H. lia.
Qed.

Lemma errors_one_short (l : str) (x : char) : Spec.errors l (l ++ [x]) = 1.
Proof.
  unfold Spec.errors, Spec.mismatches.
  rewrite (filter_ext_in _ (fun _ => false)), filter_false.
  - unfold len. rewrite length_app. cbn [List.length].
    destruct (Z.ltb_spec (Z.of_nat (List.length l + 1)) (Z.of_nat (List.length l))),
             (Z.ltb_spec (Z.of_nat (List.length l)) (Z.of_nat (List.length l + 1)));
      lia.
  - intros i _. unfold Spec.differs_at.
    destruct (nth_error l i) as [a|] eqn:Ha; [|reflexivity].
    rewrite nth_error_app1 by (apply nth_error_Some; rewrite Ha; discriminate).
    rewrite Ha, N.eqb_refl. reflexivity.
Qed.

Lemma long_reference_split : long_reference = long_typed ++ [97%N].
Proof.
  unfold long_reference, long_typed.
  replace (Z.to_nat 20000) with (Z.to_nat 19999 + 1)%nat by lia.
  now rewrite repeat_app.
Qed.

(** C10, as stated, fails: a reference of 20000 characters typed with its
    last character left out has one error and accuracy 100.0. *)
Lemma C10_full_accuracy_with_an_error :
  long_reference <> []
  /\ long_typed <> long_reference
  /\ Spec.errors long_typed long_reference = 1
  /\ exists w,
       calculate_wpm_and_accuracy long_typed long_reference
                                  (Binary64.lit 1000) (Binary64.lit 1060)
       = Ok (w, PFloat (Binary64.lit 100)).
Proof.
  assert (Spec.errors long_typed long_reference = 1) as Herr
      by (rewrite long_reference_split; apply errors_one_short).
  assert (len long_reference = 20000) as Hlen
      by (unfold len, long_reference; rewrite repeat_length; lia).
  split; [intros H; rewrite H in Hlen; discriminate|].
  split; [exact long_typed_differs|].
  split; [exact Herr|].
  eexists. rewrite calculate_wpm_and_accuracy_spec.
  unfold Spec.accuracy. rewrite Herr, Hlen.
  vm_compute. reflexivity.
Qed.

(** C10, amended: for a reference of at least one and fewer than 20000
    characters, an accuracy of 100 is returned only when the typed text equals
    the reference.  (From 20000 characters on, the rounding to two decimals
    takes a text with one error to 100.0.) *)
Theorem C10_full_accuracy_means_equal (typed reference : str)
        (start_time end_time : Binary64.float) :
  reference <> [] ->
  len reference < 20000 ->
  (exists w,
      calculate_wpm_and_accuracy typed reference start_time end_time
      = Ok (w, PFloat (Binary64.lit 100))) ->
  typed = reference.
Proof.
  intros Hne Hshort (w & Hrun).
  rewrite calculate_wpm_and_accuracy_spec in Hrun.
  injection Hrun as _ Hacc. unfold Spec.accuracy in Hacc.
  assert (0 < len reference) as Hpos.
  { unfold len. destruct reference; [contradiction | cbn [List.length]; lia]. }
  destruct (Z.eqb_spec (len reference) 0) as [|_]; [lia|].
  cbn [round] in Hacc. injection Hacc as Hacc.
  pose proof (errors_nonneg typed reference) as Herr.
  destruct (Z.eq_dec (Spec.errors typed reference) 0) as [Hzero|Hsome].
  - now apply errors_zero_eq.
  - exfalso. revert Hacc. apply accuracy_below_100; lia.
Qed.

Lemma C10_full_accuracy_means_equal_witness :
  (exists w,
      calculate_wpm_and_accuracy (str_of "ab") (content lesson_1)
                                 (Binary64.lit 1000) (Binary64.lit 1060)
      = Ok (w, PFloat (Binary64.lit 100)))
  /\ str_of "ab" = content lesson_1.
Proof.
  assert (exists w,
             calculate_wpm_and_accuracy (str_of "ab") (content lesson_1)
                                        (Binary64.lit 1000) (Binary64.lit 1060)
             = Ok (w, PFloat (Binary64.lit 100))) as Hfull.
  { eexists. vm_compute. reflexivity. }
  split; [exact Hfull|].
  apply (C10_full_accuracy_means_equal (str_of "ab") (content lesson_1)
           (Binary64.lit 1000) (Binary64.lit 1060)).
  - discriminate.
  - vm_compute. reflexivity.
  - exact Hfull.
Defined.

(** ** What holds of every state the application reaches *)

Lemma TypingApp_init_well_formed (LESSONS_FILE : file lessons_doc) (app : TypingApp) :
  TypingApp_init LESSONS_FILE = Ok app -> well_formed app.
Proof.
  unfold TypingApp_init.
  destruct (load_lessons LESSONS_FILE) as [ls|e]; cbn [bind]; [|discriminate].
  set (catalog := match ls with [] => [placeholder_lesson] | _ :: _ => ls end).
  assert (exists first others, catalog = first :: others) as (first & others & Hcat)
      by (destruct ls as [|l ls']; unfold catalog; eauto).
  destruct (TypingApp_init_nonempty catalog first others Hcat)
    as (app' & Hinit & Hls & Hsel & Hidx).
  rewrite Hinit. intros [= <-].
  split; [|split].
  - rewrite Hidx, Hls, Hcat. unfold len. cbn [List.length]. lia.
  - eauto.
  - destruct (load_lesson_by_index_in_range 0 (new_app catalog)) as (l & _ & Hload).
    { rewrite Hcat. unfold len. cbn [new_app lessons List.length]. lia. }
    rewrite Hload in Hinit. injection Hinit as <-. cbn. discriminate.
Qed.

Lemma step_well_formed (ev : event) (w w' : world) :
  well_formed (app_state w) -> step ev w = Ok w' -> well_formed (app_state w').
Proof.
  intros (Hidx & (lesson & Hsel) & Htime) Hstep.
  destruct ev as [now new_buffer | now stamp | ]; cbn [step] in Hstep.
  - (* a key: the session starts if it had not, the box is graded again *)
    set (pressed := on_key_press now (app_state w)) in *.
    assert (lessons pressed = lessons (app_state w)
            /\ current_lesson_index pressed = current_lesson_index (app_state w)
            /\ selected_lesson pressed = Some lesson
            /\ (user_started_typing pressed = true -> exists t, start_time pressed = Some t))
      as (Hls & Hcur & Hsel' & Htime').
    { unfold pressed, on_key_press.
      destruct (user_started_typing (app_state w)) eqn:Hst; cbn [negb].
      - repeat split; auto.
      - cbn. repeat split; eauto. }
    rewrite (on_text_changed_spec _ lesson) in Hstep by exact Hsel'.
    cbn [bind] in Hstep. injection Hstep as <-.
    unfold well_formed.
    cbn [app_state set_typed_text lessons current_lesson_index selected_lesson
         user_started_typing start_time].
    rewrite Hls, Hcur. split; [exact Hidx|]. split; [eauto | exact Htime'].
  - (* submit *)
    destruct (user_started_typing (app_state w)) eqn:Hst.
    + destruct (Htime eq_refl) as (t & Hstart).
      unfold on_submit in Hstep. rewrite Hsel, Hst, Hstart in Hstep.
      cbn [negb bind] in Hstep.
      rewrite calculate_wpm_and_accuracy_spec in Hstep. cbn [bind] in Hstep.
      destruct (save_progress _ (progress_file w)) as [f|e]; cbn [bind] in Hstep;
        [|discriminate].
      injection Hstep as <-. cbn. split; [exact Hidx|]. split; eauto.
    + rewrite (on_submit_not_started now stamp _ _ Hst) in Hstep. cbn [bind] in Hstep.
      injection Hstep as <-. cbn. split; [exact Hidx|]. split; eauto.
  - (* the timer of a results popup *)
    destruct (result_windows (app_state w)) as [|x xs] eqn:Hwin.
    + injection Hstep as <-. split; [exact Hidx|]. split; eauto.
    + destruct (Z.lt_ge_cases (current_lesson_index (app_state w) + 1)
                              (len (lessons (app_state w)))) as [Hnext|Hlast].
      * destruct (close_results_and_next_advances (app_state w) ltac:(lia) Hnext)
          as (l & app' & _ & Hclose & Hls & _ & Hcur & Hsel' & _ & Hst & _).
        rewrite Hclose in Hstep. cbn [bind] in Hstep. injection Hstep as <-.
        unfold well_formed. cbn [app_state].
        rewrite Hcur, Hls. split; [lia|]. split; [eauto|].
        rewrite Hst. discriminate.
      * rewrite close_results_and_next_last in Hstep by lia.
        cbn [bind] in Hstep. injection Hstep as <-. cbn.
        split; [exact Hidx|]. split; eauto.
Qed.

(** Every state reached from start-up is well formed, whatever the events. *)
Lemma run_well_formed (evs : list event) :
  forall w w',
    well_formed (app_state w) -> run evs w = Ok w' -> well_formed (app_state w').
Proof.
  induction evs as [|ev evs IH]; intros w w' Hwf Hrun; cbn [run] in Hrun.
  - now injection Hrun as <-.
  - destruct (step ev w) as [w1|e] eqn:Hstep; cbn [bind] in Hrun; [|discriminate].
    exact (IH w1 w' (step_well_formed ev w w1 Hwf Hstep) Hrun).
Qed.

(** After a keystroke in a well-formed state the session is started. *)
Lemma keystroke_starts_typing (now : Binary64.float) (new_buffer : str) (w w' : world) :
  well_formed (app_state w) ->
  step (Keystroke now new_buffer) w = Ok w' ->
  typing_started (app_state w').
Proof.
  intros Hwf Hstep.
  destruct (step_well_formed _ _ _ Hwf Hstep) as (_ & Hsel & Htime).
  destruct Hwf as (_ & (lesson & Hsel0) & _).
  assert (user_started_typing (app_state w') = true) as Hst.
  { cbn [step] in Hstep.
    set (pressed := on_key_press now (app_state w)) in *.
    assert (selected_lesson pressed = Some lesson /\ user_started_typing pressed = true)
      as (Hsel' & Hst).
    { unfold pressed, on_key_press.
      destruct (user_started_typing (app_state w)) eqn:E; cbn; auto. }
    rewrite (on_text_changed_spec _ lesson) in Hstep by exact Hsel'.
    cbn [bind] in Hstep. injection Hstep as <-.
    cbn [app_state set_typed_text user_started_typing]. exact Hst. }
  split; [exact Hst|]. split; [exact Hsel | exact (Htime Hst)].
Qed.

(* ================================================================== *)
(** * Part III. More of the program                                    *)
(* ================================================================== *)

(** ** Strings *)

Lemma str_eqb_spec (a b : str) : str_eqb a b = true <-> a = b.
Proof.
  revert b. induction a as [|x a IH]; intros [|y b]; cbn [str_eqb];
    try (split; (discriminate || reflexivity)).
  rewrite andb_true_iff, N.eqb_eq, IH. split.
  - now intros [-> ->].
  - now intros [= -> ->].
Qed.

Lemma str_of_inj (s t : string) : str_of s = str_of t -> s = t.
Proof.
  unfold str_of. intros H.
  rewrite <- (string_of_list_ascii_of_string s), <- (string_of_list_ascii_of_string t).
  f_equal.
  revert H. generalize (list_ascii_of_string s) (list_ascii_of_string t).
  induction l as [|a l IH]; intros [|b l']; cbn [List.map]; try discriminate.
  - reflexivity.
  - intros [= Hab Hl]. f_equal; [|now apply IH].
    now rewrite <- (ascii_N_embedding a), <- (ascii_N_embedding b), Hab.
Qed.

Lemma str_of_int_inj (a b : Z) : str_of_int a = str_of_int b -> a = b.
Proof.
  unfold str_of_int. intros H. apply str_of_inj in H.
  apply DecimalZ.to_int_inj.
  assert (forall z, Z.to_int z <> Decimal.Pos Decimal.Nil
                    /\ Z.to_int z <> Decimal.Neg Decimal.Nil) as Hnn.
  { intros [|p|p]; cbn; split; try discriminate;
      intros [= E]; destruct (Pos.to_uint p) eqn:Hp; try discriminate;
      now apply (DecimalPos.Unsigned.to_uint_nonnil p). }
  assert (Some (Z.to_int a) = Some (Z.to_int b)) as [= E]; [|exact E].
  rewrite <- (NilZero.isi (Z.to_int a)), <- (NilZero.isi (Z.to_int b));
    try apply Hnn.
  now rewrite H.
Qed.

(** A digit or the minus sign. *)
Lemma string_of_uint_chars (d : Decimal.uint) (c : char) :
  In c (str_of (NilEmpty.string_of_uint d)) -> (48 <= c <= 57)%N.
Proof.
  unfold str_of.
  induction d; cbn [NilEmpty.string_of_uint list_ascii_of_string List.map In];
    try contradiction;
    (intros [<- | H]; [cbn; lia | now apply IHd]).
Qed.

Lemma str_of_int_chars (n : Z) (c : char) :
  In c (str_of_int n) -> c = 45%N \/ (48 <= c <= 57)%N.
Proof.
  unfold str_of_int, NilZero.string_of_int, NilZero.string_of_uint.
  assert (forall d c,
             In c (str_of match d with
                          | Decimal.Nil => "0"%string
                          | _ => NilEmpty.string_of_uint d
                          end) -> (48 <= c <= 57)%N) as Hu.
  { intros d c'. destruct d; try apply (string_of_uint_chars _ c').
    cbn. intros [<- | []]. lia. }
  destruct (Z.to_int n) as [d|d].
  - intros H. right. now apply (Hu d).
  - unfold str_of. cbn [list_ascii_of_string List.map In].
    intros [<- | H]; [now left | right; now apply (Hu d)].
Qed.

Lemma split_on_from_first (sep : char) (pre rest tok : str) :
  (forall c, In c pre -> c <> sep) ->
  split_on_from sep tok (pre ++ sep :: rest)
  = (rev tok ++ pre) :: split_on_from sep [] rest.
Proof.
  revert tok. induction pre as [|c pre IH]; intros tok Hpre.
  - cbn [app split_on_from]. rewrite N.eqb_refl, app_nil_r. reflexivity.
  - cbn [app split_on_from].
    destruct (N.eqb_spec c sep) as [->|_].
    + exfalso. apply (Hpre sep); [now left | reflexivity].
    + rewrite IH by (intros c' Hc'; apply Hpre; now right).
      cbn [rev]. now rewrite <- app_assoc.
Qed.

Lemma lstrip_by_none (p : char -> bool) (s : str) :
  (forall c, In c s -> p c = false) -> lstrip_by p s = s.
Proof.
  destruct s as [|c s]; [reflexivity|]. intros H. cbn [lstrip_by].
  now rewrite (H c (or_introl eq_refl)).
Qed.

Lemma strip_none (s : str) :
  (forall c, In c s -> isspace c = false) -> strip s = s.
Proof.
  intros H. unfold strip, rstrip_by.
  rewrite (lstrip_by_none isspace s H).
  rewrite lstrip_by_none by (intros c Hc; apply H; now apply in_rev).
  apply rev_involutive.
Qed.

(** The id is read back from a text of the form of a dropdown entry. *)
Lemma entry_id_part (n : Z) (text : str) :
  exists others,
    split_on colon (str_of_int n ++ str_of ": " ++ text) = str_of_int n :: others
    /\ strip (str_of_int n) = str_of_int n.
Proof.
  eexists. split.
  - unfold split_on.
    change (str_of ": ") with (colon :: [32%N]). cbn [app].
    rewrite split_on_from_first; [reflexivity|].
    intros c Hc. apply str_of_int_chars in Hc. unfold colon. lia.
  - apply strip_none. intros c Hc. apply str_of_int_chars in Hc.
    assert (c = 45 \/ c = 48 \/ c = 49 \/ c = 50 \/ c = 51 \/ c = 52 \/ c = 53
            \/ c = 54 \/ c = 55 \/ c = 56 \/ c = 57)%N as Hdigit by lia.
    repeat (destruct Hdigit as [-> | Hdigit]; [reflexivity|]).
    now subst c.
Qed.

Lemma on_lesson_selected_entry (n : Z) (text : str) (app : TypingApp) :
  on_lesson_selected (str_of_int n ++ str_of ": " ++ text) app
  = on_lesson_selected_loop (str_of_int n) (lessons app) 0 app.
Proof.
  unfold on_lesson_selected.
  destruct (entry_id_part n text) as (others & -> & Hstrip).
  cbn [getitem nth_error bind]. now rewrite Hstrip.
Qed.

Lemma on_lesson_selected_loop_no_match (n : Z) (app : TypingApp) (rest : list Lesson) :
  forall i,
    (forall l, In l rest -> lesson_id l <> n) ->
    on_lesson_selected_loop (str_of_int n) rest i app = Ok app.
Proof.
  induction rest as [|l rest IH]; intros i Hno; cbn [on_lesson_selected_loop].
  - reflexivity.
  - destruct (str_eqb (str_of_int (lesson_id l)) (str_of_int n)) eqn:E.
    + apply str_eqb_spec, str_of_int_inj in E.
      exfalso. apply (Hno l); [now left | exact E].
    + apply IH. intros l' Hl'. apply Hno. now right.
Qed.

Lemma on_lesson_selected_loop_first_match (n : Z) (app : TypingApp) (rest : list Lesson) :
  forall i k l,
    nth_error rest k = Some l ->
    lesson_id l = n ->
    (forall j l', (j < k)%nat -> nth_error rest j = Some l' -> lesson_id l' <> n) ->
    on_lesson_selected_loop (str_of_int n) rest i app
    = load_lesson_by_index (i + Z.of_nat k) app.
Proof.
  induction rest as [|l0 rest IH]; intros i k l Hk Hid Hfirst.
  - destruct k; discriminate.
  - cbn [on_lesson_selected_loop]. destruct k as [|k].
    + cbn in Hk. injection Hk as ->. rewrite Hid.
      rewrite (proj2 (str_eqb_spec _ _) eq_refl). f_equal. lia.
    + destruct (str_eqb (str_of_int (lesson_id l0)) (str_of_int n)) eqn:E.
      * apply str_eqb_spec, str_of_int_inj in E.
        exfalso. apply (Hfirst 0%nat l0); [lia | reflexivity | exact E].
      * rewrite (IH (i + 1) k l Hk Hid).
        -- f_equal. lia.
        -- intros j l' Hj Hn. apply (Hfirst (S j) l'); [lia | exact Hn].
Qed.

(** ** Choosing a lesson *)

(** Choosing the dropdown entry of a lesson loads that lesson, provided no
    earlier lesson of the catalog carries the same id (otherwise the earlier
    one is found first): the lesson is selected with an empty text box and a
    session that is not started, whatever was typed before, and a submit
    right after it stores nothing: the abandoned session leaves no record. *)
Theorem on_lesson_selected_loads_lesson (app : TypingApp) (k : nat) (lesson : Lesson) :
  nth_error (lessons app) k = Some lesson ->
  (forall j l, (j < k)%nat -> nth_error (lessons app) j = Some l ->
               lesson_id l <> lesson_id lesson) ->
  In (lesson_title lesson) (lesson_titles app)
  /\ exists app',
      on_lesson_selected (lesson_title lesson) app = Ok app'
      /\ lessons app' = lessons app
      /\ current_lesson_index app' = Z.of_nat k
      /\ selected_lesson app' = Some lesson
      /\ lesson_text_label app' = content lesson
      /\ typed_text app' = {| buffer := []; tags := [] |}
      /\ user_started_typing app' = false
      /\ start_time app' = None
      /\ forall now stamp f, on_submit now stamp f app' = Ok (f, app').
Proof.
  intros Hk Hfirst. split.
  - unfold lesson_titles. apply in_map. eapply nth_error_In. exact Hk.
  - unfold lesson_title. rewrite on_lesson_selected_entry.
    rewrite (on_lesson_selected_loop_first_match _ app _ 0 k lesson Hk eq_refl Hfirst).
    assert (k < List.length (lessons app))%nat as Hlt
        by (apply nth_error_Some; rewrite Hk; discriminate).
    destruct (load_lesson_by_index_in_range (0 + Z.of_nat k) app)
      as (l & Hn & Hload).
    { unfold len. lia. }
    replace (Z.to_nat (0 + Z.of_nat k)) with k in Hn by lia.
    rewrite Hk in Hn. injection Hn as <-.
    eexists. split; [exact Hload|].
    cbn [lessons current_lesson_index selected_lesson lesson_text_label typed_text
         user_started_typing start_time].
    do 7 (split; [reflexivity || lia|]).
    intros now stamp f. now apply on_submit_not_started.
Qed.

Lemma on_lesson_selected_loads_lesson_witness :
  exists app',
    on_lesson_selected (lesson_title lesson_2) app_1 = Ok app'
    /\ selected_lesson app' = Some lesson_2
    /\ user_started_typing app' = false.
Proof.
  destruct (on_lesson_selected_loads_lesson app_1 1 lesson_2)
    as (_ & app' & Hrun & _ & _ & Hsel & _ & _ & Hst & _).
  - vm_compute. reflexivity.
  - intros j l Hj Hn. assert (j = 0%nat) as -> by lia.
    vm_compute in Hn. injection Hn as <-. vm_compute. discriminate.
  - exists app'. split; [exact Hrun|]. split; [exact Hsel | exact Hst].
Defined.

(** A text whose id part is the decimal of an integer that is the id of no
    lesson changes nothing: no error is raised and the session in progress
    goes on. *)
Theorem on_lesson_selected_unknown_id (app : TypingApp) (n : Z) (text : str) :
  (forall l, In l (lessons app) -> lesson_id l <> n) ->
  on_lesson_selected (str_of_int n ++ str_of ": " ++ text) app = Ok app.
Proof.
  intros Hno. rewrite on_lesson_selected_entry.
  now apply on_lesson_selected_loop_no_match.
Qed.

Lemma on_lesson_selected_unknown_id_witness :
  on_lesson_selected (str_of_int 7 ++ str_of ": " ++ str_of "Numbers") app_1 = Ok app_1.
Proof.
  apply (on_lesson_selected_unknown_id app_1 7 (str_of "Numbers")).
  intros l Hl. vm_compute in Hl.
  destruct Hl as [<- | [<- | []]]; vm_compute; discriminate.
Defined.

(** ** More on rounding *)

Section RoundingBounds.
Local Open Scope Q_scope.

Lemma round_nearest_zero (s : bool) (a : Q) :
  a <= 0 -> Binary64.round_nearest s a = S754_zero s.
Proof.
  intros Ha. unfold Binary64.round_nearest.
  now rewrite (proj2 (Qle_bool_iff a 0) Ha).
Qed.

(** Rounding keeps the sign it is given. *)
Lemma round_nearest_sign (s : bool) (a : Q) :
  Binary64.round_nearest s a = S754_zero s
  \/ Binary64.round_nearest s a = S754_infinity s
  \/ exists m e, Binary64.round_nearest s a = S754_finite s m e.
Proof.
  unfold Binary64.round_nearest.
  destruct (Qle_bool a 0); [now left|].
  destruct (Binary64.round_half_even _ =? 2 ^ 53)%Z.
  - change (2 ^ 52)%Z with (Zpos 4503599627370496).
    destruct (_ <=? 971)%Z; [right; right; eauto | right; now left].
  - destruct (Binary64.round_half_even _); [now left | | now left].
    destruct (_ <=? 971)%Z; [right; right; eauto | right; now left].
Qed.

(** Rounding does not pass a bound that is itself a float at the exponent of
    the argument or above: the result is zero or a float not above the bound. *)
Lemma round_nearest_upper (s : bool) (a : Q) (M E : Z) :
  0 < a ->
  a <= inject_Z M * 2 ^ E ->
  (Z.max (Binary64.ilog2 a - 52) (-1074) <= E)%Z ->
  inject_Z M * 2 ^ E < 2 ^ 1024 ->
  Binary64.round_nearest s a = S754_zero s
  \/ exists m e,
      Binary64.round_nearest s a = S754_finite s m e
      /\ inject_Z (Zpos m) * 2 ^ e <= inject_Z M * 2 ^ E.
Proof.
  intros Ha Hle HE Hfin.
  destruct (ilog2_spec a Ha) as [He0 _].
  set (e0 := Binary64.ilog2 a) in *.
  set (e := Z.max (e0 - 52) (-1074)) in *.
  pose proof (pow2_pos e) as Hepos.
  set (x := a / 2 ^ e).
  assert (a == x * 2 ^ e) as Hax by (unfold x; field; lra).
  assert (inject_Z M * 2 ^ E == inject_Z (M * 2 ^ (E - e)) * 2 ^ e) as HB.
  { rewrite inject_Z_mult, <- pow2_nonneg_inject by lia.
    rewrite <- Qmult_assoc, <- pow2_add.
    now replace (E - e + e)%Z with E by lia. }
  assert (x <= inject_Z (M * 2 ^ (E - e))) as Hx.
  { apply Qle_shift_div_r; [exact Hepos|]. now rewrite <- HB. }
  pose proof (round_half_even_le x _ Hx) as Hm.
  assert (0 <= Binary64.round_half_even x)%Z as Hm0.
  { apply round_half_even_ge. change (inject_Z 0) with 0.
    unfold x. apply Qle_shift_div_l; [exact Hepos | lra]. }
  set (m0 := Binary64.round_half_even x) in *.
  assert (inject_Z m0 * 2 ^ e <= inject_Z M * 2 ^ E) as Hval.
  { rewrite HB. apply Qmult_le_compat_r; [|lra]. now rewrite <- Zle_Qle. }
  unfold Binary64.round_nearest.
  assert (Qle_bool a 0 = false) as ->.
  { destruct (Qle_bool a 0) eqn:Hb; [|reflexivity]. apply Qle_bool_iff in Hb. lra. }
  fold e0. fold e. fold x. fold m0.
  destruct (Z.eqb_spec m0 (2 ^ 53)) as [Heq|Hne].
  - change (2 ^ 52)%Z with (Zpos 4503599627370496).
    assert (e + 1 <= 971)%Z as Hexp.
    { assert (2 ^ (53 + e) < 2 ^ 1024) as Hlt.
      { rewrite pow2_add, pow2_nonneg_inject by lia. rewrite <- Heq. lra. }
      apply pow2_lt_inv in Hlt. lia. }
    rewrite (proj2 (Z.leb_le _ _) Hexp).
    right. do 2 eexists. split; [reflexivity|].
    assert (inject_Z (Zpos 4503599627370496) * 2 ^ (e + 1) == inject_Z m0 * 2 ^ e) as ->;
      [|exact Hval].
    rewrite Heq, pow2_add.
    change (inject_Z (2 ^ 53)) with (inject_Z 9007199254740992).
    change (2 ^ 1) with 2. unfold inject_Z. field.
  - destruct m0 as [|p|p] eqn:Hp; [now left | | now left].
    assert (e <= 971)%Z as Hexp.
    { assert (2 ^ e0 < 2 ^ 1024) as Hlt by lra.
      apply pow2_lt_inv in Hlt. unfold e. lia. }
    rewrite (proj2 (Z.leb_le _ _) Hexp).
    right. do 2 eexists. split; [reflexivity | exact Hval].
Qed.

Lemma ilog2_below (a : Q) (k : Z) : 0 < a -> a < 2 ^ k -> (Binary64.ilog2 a < k)%Z.
Proof.
  intros Ha Hk. destruct (ilog2_spec a Ha) as [Hlo _].
  apply pow2_lt_inv. lra.
Qed.

(** A quotient of equal integers is the float 1.0. *)
Lemma div_Z_self (t : Z) :
  (0 < t)%Z -> Binary64.div_Z t t = S754_finite false 4503599627370496 (-52).
Proof.
  intros Ht. unfold Binary64.div_Z.
  rewrite (proj2 (Z.ltb_ge t 0)) by lia. cbn [xorb].
  rewrite Z.abs_eq by lia.
  assert (0 < inject_Z t) as Htq by (rewrite <- (Zlt_Qlt 0); lia).
  set (a := inject_Z t / inject_Z t).
  assert (a == 1) as Ha1 by (unfold a; field; lra).
  assert (0 < a) as Ha by lra.
  destruct (ilog2_spec a Ha) as [Hlo Hhi].
  assert (Binary64.ilog2 a = 0%Z) as He0.
  { assert (Binary64.ilog2 a < 1)%Z by (apply ilog2_below; [exact Ha | change (2 ^ 1) with 2; lra]).
    assert (0 < Binary64.ilog2 a + 1)%Z; [|lia].
    apply pow2_lt_inv. change (2 ^ 0) with 1. lra. }
  unfold Binary64.round_nearest.
  assert (Qle_bool a 0 = false) as ->.
  { destruct (Qle_bool a 0) eqn:Hb; [|reflexivity]. apply Qle_bool_iff in Hb. lra. }
  rewrite He0. change (Z.max (0 - 52) (-1074)) with (-52)%Z.
  assert (a / 2 ^ (-52) == inject_Z (2 ^ 52)) as Hx.
  { rewrite Ha1. reflexivity. }
  assert (Binary64.round_half_even (a / 2 ^ (-52)) = 2 ^ 52)%Z as ->.
  { apply Z.le_antisymm.
    - apply round_half_even_le. rewrite Hx. apply Qle_refl.
    - apply round_half_even_ge. rewrite Hx. apply Qle_refl. }
  reflexivity.
Qed.

End RoundingBounds.

(** ** More on the error count *)

Lemma mismatches_le (typed reference : str) (n : nat) :
  (forall i, (n <= i)%nat -> Spec.differs_at typed reference i = false) ->
  Spec.mismatches typed reference <= Z.of_nat n.
Proof.
  intros Hn. unfold Spec.mismatches, len.
  destruct (Nat.le_gt_cases (List.length reference) n) as [Hle|Hgt].
  - pose proof (filter_length_le (Spec.differs_at typed reference)
                                 (seq 0 (List.length reference))) as H.
    rewrite length_seq in H. lia.
  - replace (List.length reference) with (n + (List.length reference - n))%nat by lia.
    rewrite seq_app, filter_app, length_app.
    rewrite (filter_ext_in _ (fun _ => false) (seq (0 + n) _)), filter_false.
    + pose proof (filter_length_le (Spec.differs_at typed reference) (seq 0 n)) as H.
      rewrite length_seq in H. cbn [List.length]. lia.
    + intros i Hi. apply in_seq in Hi. apply Hn. lia.
Qed.

Lemma mismatches_nonneg (typed reference : str) : 0 <= Spec.mismatches typed reference.
Proof. apply len_nonneg. Qed.

Lemma mismatches_le_typed (typed reference : str) :
  Spec.mismatches typed reference <= len typed.
Proof.
  apply mismatches_le. intros i Hi. unfold Spec.differs_at.
  now rewrite (proj2 (nth_error_None typed i) Hi).
Qed.

Lemma mismatches_le_reference (typed reference : str) :
  Spec.mismatches typed reference <= len reference.
Proof.
  apply mismatches_le. intros i Hi. unfold Spec.differs_at.
  rewrite (proj2 (nth_error_None reference i) Hi).
  now destruct (nth_error typed i).
Qed.

Lemma errors_same (text : str) : Spec.errors text text = 0.
Proof.
  unfold Spec.errors.
  assert (Spec.mismatches text text = 0) as ->.
  { pose proof (mismatches_nonneg text text).
    assert (Spec.mismatches text text <= Z.of_nat 0); [|lia].
    apply mismatches_le. intros i _. unfold Spec.differs_at.
    destruct (nth_error text i); [now rewrite N.eqb_refl | reflexivity]. }
  rewrite Z.ltb_irrefl. reflexivity.
Qed.

Lemma errors_nothing_typed (reference : str) :
  Spec.errors [] reference = len reference.
Proof.
  unfold Spec.errors.
  pose proof (mismatches_nonneg [] reference).
  pose proof (mismatches_le_typed [] reference).
  pose proof (len_nonneg reference).
  change (len (@nil char)) with 0 in *.
  destruct (Z.ltb_spec (len reference) 0), (Z.ltb_spec 0 (len reference)); lia.
Qed.

(** The number of errors the scoring counts lies between the difference of
    the two lengths and the greater of them; it is above the length of the
    reference only when the typed text is longer than the reference. *)
Theorem count_errors_bounds (typed reference : str) :
  exists errors,
    count_errors typed reference = Ok errors
    /\ Z.abs (len typed - len reference) <= errors <= Z.max (len typed) (len reference)
    /\ (len typed <= len reference -> errors <= len reference).
Proof.
  exists (Spec.errors typed reference). split; [apply count_errors_spec|].
  unfold Spec.errors.
  pose proof (mismatches_nonneg typed reference).
  pose proof (mismatches_le_typed typed reference).
  pose proof (mismatches_le_reference typed reference).
  destruct (Z.ltb_spec (len reference) (len typed)),
           (Z.ltb_spec (len typed) (len reference)); lia.
Qed.

(** ** More on the accuracy *)

Section AccuracyRange.
Local Open Scope Q_scope.

Lemma is_percentage_round_2 (f : Binary64.float) :
  is_percentage (PFloat f) -> is_percentage (PFloat (Binary64.round_2 f)).
Proof.
  destruct f as [[|]|s| |[|] m e]; cbn [is_percentage]; try contradiction; try exact (fun H => H).
  intros Hle. cbn [Binary64.round_2 Binary64.magnitude].
  set (v := inject_Z (Zpos m) * 2 ^ e) in *.
  assert (0 < v) as Hv.
  { unfold v. apply Qmult_lt_0_compat; [reflexivity | apply pow2_pos]. }
  assert (Binary64.round_half_even (v * 100) <= 10000)%Z as Hn
      by (apply round_half_even_le; change (inject_Z 10000) with 10000; lra).
  assert (0 <= Binary64.round_half_even (v * 100))%Z as Hn0
      by (apply round_half_even_ge; change (inject_Z 0) with 0; lra).
  set (n := Binary64.round_half_even (v * 100)) in *.
  destruct (Z.eq_dec n 0) as [->|Hnz].
  - rewrite round_nearest_zero; [exact I | discriminate].
  - assert (inject_Z 1 <= inject_Z n) as Hq1 by (rewrite <- Zle_Qle; lia).
    assert (inject_Z n <= inject_Z 10000) as Hq2 by (rewrite <- Zle_Qle; lia).
    change (inject_Z 1) with 1 in Hq1. change (inject_Z 10000) with 10000 in Hq2.
    assert (0 < inject_Z n / 100) as Hpos
        by (apply Qlt_shift_div_l; [reflexivity | lra]).
    assert (inject_Z n / 100 <= 100) as Hdiv
        by (apply Qle_shift_div_r; [reflexivity | lra]).
    destruct (round_nearest_upper false (inject_Z n / 100) 25 2 Hpos)
      as [-> | (m' & e' & -> & Hb)].
    + change (inject_Z 25 * 2 ^ 2) with (25 * 4). lra.
    + assert (Binary64.ilog2 (inject_Z n / 100) < 7)%Z
        by (apply ilog2_below; [exact Hpos | change (2 ^ 7) with 128; lra]).
      lia.
    + reflexivity.
    + exact I.
    + cbn [is_percentage]. change (inject_Z 25 * 2 ^ 2) with (25 * 4) in Hb. lra.
Qed.

Lemma accuracy_ratio_is_percentage (c t : Z) :
  (0 <= c <= t)%Z -> (0 < t)%Z ->
  is_percentage (PFloat (Binary64.mul (Binary64.div_Z c t) (Binary64.of_Z 100))).
Proof.
  intros Hc Ht.
  destruct of_Z_100 as (mh & eh & Hof & Hvh). rewrite Hof.
  unfold Binary64.div_Z.
  rewrite (proj2 (Z.ltb_ge c 0)), (proj2 (Z.ltb_ge t 0)) by lia. cbn [xorb].
  rewrite !Z.abs_eq by lia.
  assert (0 < inject_Z t) as Htq by (rewrite <- (Zlt_Qlt 0); lia).
  destruct (Z.eq_dec c 0) as [->|Hc0].
  - rewrite round_nearest_zero; [exact I|].
    unfold Qdiv. rewrite Qmult_0_l. apply Qle_refl.
  - assert (0 < inject_Z c) as Hcq by (rewrite <- (Zlt_Qlt 0); lia).
    assert (inject_Z c <= inject_Z t) as Hct by (rewrite <- Zle_Qle; lia).
    assert (0 < inject_Z c / inject_Z t) as Hpos
        by (apply Qlt_shift_div_l; [exact Htq | lra]).
    assert (inject_Z c / inject_Z t <= 1) as Hle
        by (apply Qle_shift_div_r; [exact Htq | lra]).
    destruct (round_nearest_upper false (inject_Z c / inject_Z t) 1 0 Hpos)
      as [-> | (m1 & e1 & -> & Hb1)].
    + change (inject_Z 1 * 2 ^ 0) with (1 * 1). lra.
    + assert (Binary64.ilog2 (inject_Z c / inject_Z t) < 1)%Z
        by (apply ilog2_below; [exact Hpos | change (2 ^ 1) with 2; lra]).
      lia.
    + reflexivity.
    + exact I.
    + cbn [Binary64.mul Binary64.magnitude xorb].
      change (inject_Z 1 * 2 ^ 0) with (1 * 1) in Hb1.
      set (v1 := inject_Z (Zpos m1) * 2 ^ e1) in *.
      set (vh := inject_Z (Zpos mh) * 2 ^ eh) in *.
      assert (0 < v1) as Hv1.
      { unfold v1. apply Qmult_lt_0_compat; [reflexivity | apply pow2_pos]. }
      assert (0 < v1 * vh) as Hpos2 by (rewrite Hvh; lra).
      assert (v1 * vh <= 100) as Hle2 by (rewrite Hvh; lra).
      destruct (round_nearest_upper false (v1 * vh) 25 2 Hpos2)
        as [-> | (m2 & e2 & -> & Hb2)].
      * change (inject_Z 25 * 2 ^ 2) with (25 * 4). lra.
      * assert (Binary64.ilog2 (v1 * vh) < 7)%Z
          by (apply ilog2_below; [exact Hpos2 | change (2 ^ 7) with 128; lra]).
        lia.
      * reflexivity.
      * exact I.
      * cbn [is_percentage]. change (inject_Z 25 * 2 ^ 2) with (25 * 4) in Hb2. lra.
Qed.

End AccuracyRange.

(** The accuracy returned is a percentage: the integer [0] for an empty
    reference, and otherwise a float that is not negative, not NaN and not
    above [100.0], however many errors there are. *)
Theorem accuracy_is_percentage (typed reference : str)
        (start_time end_time : Binary64.float) :
  exists w a,
    calculate_wpm_and_accuracy typed reference start_time end_time = Ok (w, a)
    /\ is_percentage a.
Proof.
  do 2 eexists. split; [apply calculate_wpm_and_accuracy_spec|].
  unfold Spec.accuracy.
  pose proof (len_nonneg reference) as Hlen.
  pose proof (errors_nonneg typed reference) as Herr.
  destruct (Z.eqb_spec (len reference) 0) as [_|Hne]; [reflexivity|].
  cbn [round]. apply is_percentage_round_2, accuracy_ratio_is_percentage; lia.
Qed.

(** Typing the reference exactly: no error is counted, the accuracy is
    [100.0], and the live grading tags every character [correct]. *)
Theorem exact_typing_is_full_score (app : TypingApp) (lesson : Lesson)
        (start_time end_time : Binary64.float) :
  selected_lesson app = Some lesson ->
  buffer (typed_text app) = content lesson ->
  content lesson <> [] ->
  count_errors (content lesson) (content lesson) = Ok 0
  /\ (exists w,
         calculate_wpm_and_accuracy (content lesson) (content lesson) start_time end_time
         = Ok (w, PFloat (Binary64.lit 100)))
  /\ (exists app',
         on_text_changed app = Ok app'
         /\ tags (typed_text app')
            = List.map (fun i => (i, correct)) (seq 0 (List.length (content lesson)))).
Proof.
  intros Hsel Hbuf Hne.
  split; [|split].
  - rewrite count_errors_spec, errors_same. reflexivity.
  - eexists. rewrite calculate_wpm_and_accuracy_spec.
    unfold Spec.accuracy. rewrite errors_same.
    assert (0 < len (content lesson)) as Hpos.
    { unfold len. destruct (content lesson); [contradiction | cbn [List.length]; lia]. }
    destruct (Z.eqb_spec (len (content lesson)) 0) as [|_]; [lia|].
    rewrite Z.sub_0_r, Z.max_r by lia.
    rewrite div_Z_self by exact Hpos.
    assert (round (PFloat (Binary64.mul (S754_finite false 4503599627370496 (-52))
                                        (Binary64.of_Z 100)))
            = PFloat (Binary64.lit 100)) as -> by (vm_compute; reflexivity).
    reflexivity.
  - eexists. split; [apply (on_text_changed_spec app lesson Hsel)|].
    cbn [set_typed_text typed_text tags]. rewrite Hbuf.
    apply map_ext_in. intros i Hi. apply in_seq in Hi. f_equal.
    unfold tag_for.
    destruct (nth_error (content lesson) i) eqn:E.
    + now rewrite N.eqb_refl.
    + apply nth_error_None in E. lia.
Qed.


Lemma exact_typing_is_full_score_witness :
  (exists w,
      calculate_wpm_and_accuracy (content lesson_1) (content lesson_1)
                                 (Binary64.lit 1000) (Binary64.lit 1060)
      = Ok (w, PFloat (Binary64.lit 100)))
  /\ exists app',
      on_text_changed (with_buffer (content lesson_1) app_0) = Ok app'
      /\ tags (typed_text app') = [(0%nat, correct); (1%nat, correct)].
Proof.
  destruct (exact_typing_is_full_score (with_buffer (content lesson_1) app_0) lesson_1
              (Binary64.lit 1000) (Binary64.lit 1060))
    as (_ & Hfull & Htags).
  - vm_compute. reflexivity.
  - reflexivity.
  - discriminate.
  - split; [exact Hfull | exact Htags].
Defined.

(** Nothing typed against a reference that is not empty: every character is
    missing and the accuracy is [0.0].  An empty reference: words per minute
    and accuracy are both the integer [0], whatever was typed and however
    long it took. *)
Theorem scoring_empty_texts (text : str) (start_time end_time : Binary64.float) :
  calculate_wpm_and_accuracy text [] start_time end_time = Ok (PInt 0, PInt 0)
  /\ (text <> [] ->
      count_errors [] text = Ok (len text)
      /\ exists w,
          calculate_wpm_and_accuracy [] text start_time end_time
          = Ok (w, PFloat (S754_zero false))).
Proof.
  split.
  - rewrite calculate_wpm_and_accuracy_spec.
    unfold Spec.wpm, Spec.accuracy.
    change (Spec.word_count []) with 0. change (len (@nil char)) with 0.
    now rewrite andb_false_r.
  - intros Hne.
    split; [now rewrite count_errors_spec, errors_nothing_typed|].
    eexists. rewrite calculate_wpm_and_accuracy_spec.
    unfold Spec.accuracy. rewrite errors_nothing_typed.
    assert (0 < len text) as Hpos.
    { unfold len. destruct text; [contradiction | cbn [List.length]; lia]. }
    destruct (Z.eqb_spec (len text) 0) as [|_]; [lia|].
    rewrite Z.sub_diag. change (Z.max 0 0) with 0.
    assert (Binary64.div_Z 0 (len text) = S754_zero false) as ->.
    { unfold Binary64.div_Z. rewrite (proj2 (Z.ltb_ge (len text) 0)) by lia.
      apply round_nearest_zero. cbn [Z.abs].
      unfold Qdiv. rewrite Qmult_0_l. apply Qle_refl. }
    destruct of_Z_100 as (mh & eh & -> & _). reflexivity.
Qed.

Lemma scoring_empty_texts_witness :
  exists w,
    calculate_wpm_and_accuracy [] (content lesson_2)
                               (Binary64.lit 1000) (Binary64.lit 1060)
    = Ok (w, PFloat (S754_zero false)).
Proof.
  destruct (scoring_empty_texts (content lesson_2) (Binary64.lit 1000) (Binary64.lit 1060))
    as (_ & Hnothing).
  destruct Hnothing as (_ & Hzero); [discriminate | exact Hzero].
Defined.

(** ** More on the words per minute *)

Lemma token_starts_le (s : str) (b : bool) :
  (Spec.token_starts b s <= List.length s)%nat.
Proof.
  revert b. induction s as [|c s IH]; intros b; cbn [Spec.token_starts List.length].
  - lia.
  - specialize (IH (isspace c)). destruct (b && negb (isspace c)); lia.
Qed.

Lemma of_Z_word_count_finite (n : Z) :
  0 < n < 2 ^ 63 -> exists m e, Binary64.of_Z n = S754_finite false m e.
Proof.
  intros Hn. unfold Binary64.of_Z.
  rewrite (proj2 (Z.ltb_ge n 0)) by lia. rewrite Z.abs_eq by lia.
  destruct (round_nearest_normal false (inject_Z n) 0) as (m & e & -> & _); eauto.
  - lia.
  - change (2 ^ 0)%Q with (inject_Z 1). rewrite <- Zle_Qle. lia.
  - apply Qlt_le_trans with (inject_Z (2 ^ 63)).
    + rewrite <- Zlt_Qlt. lia.
    + rewrite <- pow2_nonneg_inject by lia. apply pow2_le. lia.
Qed.

Lemma not_negative_round (f : Binary64.float) :
  not_negative (PFloat f) -> not_negative (round (PFloat f)).
Proof.
  destruct f as [[|]|[|]| |[|] m e]; cbn [not_negative round Binary64.round_2];
    try contradiction; try exact (fun H => H).
  intros _.
  destruct (round_nearest_sign false
              (inject_Z (Binary64.round_half_even
                           (Binary64.magnitude (S754_finite false m e) * 100)) / 100))
    as [-> | [-> | (m' & e' & ->)]]; exact I.
Qed.

(** For a reference of a length a Python string can have (below [2^63]), the
    words per minute returned are the integer [0] or a float that is neither
    negative nor NaN, whatever the two clock readings are, NaN and infinities
    included. *)
Theorem wpm_is_not_negative (typed reference : str)
        (start_time end_time : Binary64.float) :
  len reference < 2 ^ 63 ->
  exists w a,
    calculate_wpm_and_accuracy typed reference start_time end_time = Ok (w, a)
    /\ not_negative w.
Proof.
  intros Hlen. do 2 eexists. split; [apply calculate_wpm_and_accuracy_spec|].
  unfold Spec.wpm.
  set (minutes := Spec.elapsed_minutes start_time end_time).
  destruct (Binary64.gt_zero minutes) eqn:Hpos; cbn [andb]; [|cbn; lia].
  destruct (Z.ltb_spec 0 (Spec.word_count reference)) as [Hwc|_]; [|cbn; lia].
  apply not_negative_round.
  destruct (of_Z_word_count_finite (Spec.word_count reference)) as (m & e & ->).
  { split; [exact Hwc|]. unfold Spec.word_count.
    pose proof (token_starts_le reference true). unfold len in Hlen. lia. }
  destruct minutes as [[|]|[|]| |[|] m' e']; cbn in Hpos; try discriminate.
  - exact I.
  - cbn [Binary64.div xorb].
    destruct (round_nearest_sign false
                (Binary64.magnitude (S754_finite false m e)
                 / Binary64.magnitude (S754_finite false m' e'))%Q)
      as [-> | [-> | (m2 & e2 & ->)]]; exact I.
Qed.

Lemma wpm_is_not_negative_witness :
  exists w a,
    calculate_wpm_and_accuracy (str_of "a b") (content lesson_2)
                               (Binary64.lit 1060) (Binary64.lit 1000) = Ok (w, a)
    /\ not_negative w.
Proof.
  apply (wpm_is_not_negative (str_of "a b") (content lesson_2)
                             (Binary64.lit 1060) (Binary64.lit 1000)).
  vm_compute. reflexivity.
Defined.

(** ** What every session keeps *)

Lemma on_lesson_selected_loop_cases (s : str) (app : TypingApp) (rest : list Lesson) :
  forall i,
    on_lesson_selected_loop s rest i app = Ok app
    \/ exists k, (k < List.length rest)%nat
                 /\ on_lesson_selected_loop s rest i app
                    = load_lesson_by_index (i + Z.of_nat k) app.
Proof.
  induction rest as [|l rest IH]; intros i; cbn [on_lesson_selected_loop].
  - now left.
  - destruct (str_eqb (str_of_int (lesson_id l)) s).
    + right. exists 0%nat. cbn [List.length]. split; [lia|]. f_equal. lia.
    + destruct (IH (i + 1)) as [H | (k & Hk & H)]; [now left|].
      right. exists (S k). cbn [List.length]. split; [lia|].
      rewrite H. f_equal. lia.
Qed.

(** Whatever the dropdown holds, [on_lesson_selected] returns, with the
    application as it was or with a lesson of the catalog loaded. *)
Lemma on_lesson_selected_cases (selected_str : str) (app : TypingApp) :
  on_lesson_selected selected_str app = Ok app
  \/ exists index, 0 <= index < len (lessons app)
                   /\ on_lesson_selected selected_str app
                      = load_lesson_by_index index app.
Proof.
  unfold on_lesson_selected.
  assert (exists first others, split_on colon selected_str = first :: others)
    as (first & others & ->).
  { unfold split_on. generalize (@nil char).
    induction selected_str as [|c s IH]; intros tok; cbn [split_on_from]; eauto.
    destruct (N.eqb c colon); eauto. }
  cbn [getitem nth_error bind].
  destruct (on_lesson_selected_loop_cases (strip first) app (lessons app) 0)
    as [H | (k & Hk & H)]; [now left|].
  right. exists (0 + Z.of_nat k). split; [unfold len; lia | exact H].
Qed.

Lemma load_lesson_by_index_keeps (index : Z) (app app' : TypingApp) :
  well_formed app -> shows_current_lesson app ->
  load_lesson_by_index index app = Ok app' ->
  well_formed app' /\ shows_current_lesson app' /\ lessons app' = lessons app.
Proof.
  intros Hwf Hshow Hload.
  destruct (Z.lt_ge_cases index 0) as [Hneg|Hpos].
  { rewrite load_lesson_by_index_out_of_range in Hload by lia.
    injection Hload as <-. auto. }
  destruct (Z.lt_ge_cases index (len (lessons app))) as [Hin|Hout].
  - destruct (load_lesson_by_index_in_range index app ltac:(lia)) as (l & Hn & Heq).
    rewrite Heq in Hload. injection Hload as <-.
    split; [|split; [|reflexivity]].
    + split; [cbn; lia|]. split; [cbn; eauto | cbn; discriminate].
    + exists l. cbn. auto.
  - rewrite load_lesson_by_index_out_of_range in Hload by lia.
    injection Hload as <-. auto.
Qed.

Lemma step_keeps (ev : event) (w w' : world) :
  well_formed (app_state w) -> shows_current_lesson (app_state w) ->
  step ev w = Ok w' ->
  shows_current_lesson (app_state w') /\ lessons (app_state w') = lessons (app_state w).
Proof.
  intros Hwf (lesson & Hnth & Hsel & Hlabel) Hstep.
  assert (shows_current_lesson (app_state w)) as Hshow by (exists lesson; auto).
  destruct ev as [now new_buffer | now stamp | ]; cbn [step] in Hstep.
  - set (pressed := on_key_press now (app_state w)) in *.
    assert (lessons pressed = lessons (app_state w)
            /\ current_lesson_index pressed = current_lesson_index (app_state w)
            /\ selected_lesson pressed = Some lesson
            /\ lesson_text_label pressed = lesson_text_label (app_state w))
      as (Hls & Hcur & Hsel' & Hlab).
    { unfold pressed, on_key_press.
      destruct (user_started_typing (app_state w)); cbn; auto. }
    rewrite (on_text_changed_spec _ lesson) in Hstep by exact Hsel'.
    cbn [bind] in Hstep. injection Hstep as <-.
    split; [|exact Hls].
    exists lesson.
    cbn [app_state set_typed_text lessons current_lesson_index selected_lesson
         lesson_text_label].
    rewrite Hls, Hcur, Hlab. auto.
  - unfold on_submit in Hstep. rewrite Hsel in Hstep.
    destruct (user_started_typing (app_state w)); cbn [negb bind] in Hstep.
    + destruct (start_time (app_state w)); cbn [bind] in Hstep; [|discriminate].
      rewrite calculate_wpm_and_accuracy_spec in Hstep. cbn [bind] in Hstep.
      destruct (save_progress _ (progress_file w)); cbn [bind] in Hstep; [|discriminate].
      injection Hstep as <-. split; [|reflexivity]. exists lesson. cbn. auto.
    + injection Hstep as <-. auto.
  - destruct (result_windows (app_state w)) as [|x xs] eqn:Hwin.
    + injection Hstep as <-. auto.
    + destruct (close_results_and_next (app_state w)) as [app'|e] eqn:Hclose;
        cbn [bind] in Hstep; [|discriminate].
      injection Hstep as <-. cbn [app_state].
      unfold close_results_and_next in Hclose.
      cbn [set_windows current_lesson_index lessons] in Hclose.
      destruct (current_lesson_index (app_state w) + 1 <? len (lessons (app_state w))).
      * apply load_lesson_by_index_keeps in Hclose.
        -- destruct Hclose as (_ & Hs & Hl). split; [exact Hs | exact Hl].
        -- exact Hwf.
        -- exists lesson. cbn. auto.
      * injection Hclose as <-. split; [|reflexivity]. exists lesson. cbn. auto.
Qed.

Lemma ui_step_keeps (ev : ui_event) (w w' : world) :
  well_formed (app_state w) -> shows_current_lesson (app_state w) ->
  ui_step ev w = Ok w' ->
  well_formed (app_state w') /\ shows_current_lesson (app_state w')
  /\ lessons (app_state w') = lessons (app_state w).
Proof.
  intros Hwf Hshow Hstep. destruct ev as [ev | selected_str]; cbn [ui_step] in Hstep.
  - split; [exact (step_well_formed ev w w' Hwf Hstep)|].
    exact (step_keeps ev w w' Hwf Hshow Hstep).
  - destruct (on_lesson_selected selected_str (app_state w)) as [app'|e] eqn:Hsel;
      cbn [bind] in Hstep; [|discriminate].
    injection Hstep as <-. cbn [app_state].
    destruct (on_lesson_selected_cases selected_str (app_state w))
      as [H | (index & _ & H)]; rewrite H in Hsel.
    + injection Hsel as <-. auto.
    + exact (load_lesson_by_index_keeps index _ _ Hwf Hshow Hsel).
Qed.

Lemma TypingApp_init_shows (LESSONS_FILE : file lessons_doc) (app : TypingApp) :
  TypingApp_init LESSONS_FILE = Ok app -> shows_current_lesson app.
Proof.
  unfold TypingApp_init.
  destruct (load_lessons LESSONS_FILE) as [ls|e]; cbn [bind]; [|discriminate].
  set (catalog := match ls with [] => [placeholder_lesson] | _ :: _ => ls end).
  assert (exists first others, catalog = first :: others) as (first & others & Hcat)
      by (destruct ls as [|l ls']; unfold catalog; eauto).
  destruct (load_lesson_by_index_in_range 0 (new_app catalog)) as (l & Hn & Hload).
  { rewrite Hcat. unfold len. cbn [new_app lessons List.length]. lia. }
  rewrite Hload. intros [= <-]. exists l. cbn. auto.
Qed.

(** From start-up on, whatever the user does (keys, submits, timers, picks in
    the dropdown with any text in it), in every state the application
    reaches: the catalog is the one loaded at start-up, the current index
    lies in it, the selected lesson is the lesson at that index and the label
    shows its text, and a started session has its start time. *)
Theorem session_invariants (LESSONS_FILE : file lessons_doc) (f : file progress_doc)
        (app : TypingApp) (evs : list ui_event) (w' : world) :
  TypingApp_init LESSONS_FILE = Ok app ->
  ui_run evs {| progress_file := f; app_state := app |} = Ok w' ->
  lessons (app_state w') = lessons app
  /\ lessons (app_state w') <> []
  /\ well_formed (app_state w')
  /\ shows_current_lesson (app_state w').
Proof.
  intros Hinit Hrun.
  pose proof (TypingApp_init_well_formed _ _ Hinit) as Hwf.
  pose proof (TypingApp_init_shows _ _ Hinit) as Hshow.
  assert (forall evs w w',
             well_formed (app_state w) -> shows_current_lesson (app_state w) ->
             ui_run evs w = Ok w' ->
             lessons (app_state w') = lessons (app_state w)
             /\ well_formed (app_state w')
             /\ shows_current_lesson (app_state w')) as Hall.
  { clear. induction evs as [|ev evs IH]; intros w w' Hwf Hshow Hrun; cbn [ui_run] in Hrun.
    - injection Hrun as <-. auto.
    - destruct (ui_step ev w) as [w1|e] eqn:Hstep; cbn [bind] in Hrun; [|discriminate].
      destruct (ui_step_keeps ev w w1 Hwf Hshow Hstep) as (Hwf1 & Hshow1 & Hls1).
      destruct (IH w1 w' Hwf1 Hshow1 Hrun) as (Hls & Hwf' & Hshow').
      rewrite Hls, Hls1. auto. }
  destruct (Hall evs {| progress_file := f; app_state := app |} w' Hwf Hshow Hrun)
    as (Hls & Hwf' & Hshow').
  cbn [app_state] in Hls.
  split; [exact Hls|]. split; [|split; assumption].
  destruct Hwf' as (Hidx & _). intros Hnil. rewrite Hnil in Hidx.
  unfold len in Hidx. cbn in Hidx. lia.
Qed.

Lemma session_invariants_witness :
  exists w',
    ui_run [Engine (Keystroke (Binary64.lit 1000) (str_of "a"));
            LessonSelected (lesson_title lesson_2);
            Engine (Submit (Binary64.lit 1060) stamp_1)]
           {| progress_file := Absent; app_state := app_0 |} = Ok w'
    /\ well_formed (app_state w')
    /\ shows_current_lesson (app_state w').
Proof.
  eexists. split; [vm_compute; reflexivity|].
  refine (proj2 (proj2 (session_invariants two_lessons Absent app_0
            [Engine (Keystroke (Binary64.lit 1000) (str_of "a"));
             LessonSelected (lesson_title lesson_2);
             Engine (Submit (Binary64.lit 1060) stamp_1)] _ _ _))).
  - vm_compute. reflexivity.
  - vm_compute. reflexivity.
Defined.

(** ** The progress log along a session *)

(** [save_progress] succeeds exactly on a log that is absent or holds its
    attempts, and then the log holds the old records followed by the new
    one; on any other log it raises and writes nothing. *)
Theorem save_progress_succeeds_iff (r : AttemptRecord) (f f' : file progress_doc) :
  save_progress r f = Ok f'
  <-> usable f /\ f' = Parsed {| doc_attempts := Some (records f ++ [r]) |}.
Proof.
  split.
  - destruct f as [| |[[l|]]]; cbn; intros H; try discriminate;
      injection H as <-; split; (exact I || reflexivity).
  - intros [Hf ->]. now apply save_progress_usable.
Qed.

Lemma save_progress_usable_inv (r : AttemptRecord) (f f' : file progress_doc) :
  save_progress r f = Ok f' -> records f' = records f ++ [r].
Proof.
  destruct f as [| |[[l|]]]; cbn; intros H; try discriminate;
    now injection H as <-.
Qed.

Lemma step_log (ev : event) (w w' : world) :
  step ev w = Ok w' ->
  exists added,
    records (progress_file w') = records (progress_file w) ++ added
    /\ (List.length added <= if is_submit (Engine ev) then 1 else 0)%nat.
Proof.
  intros Hstep.
  destruct ev as [now new_buffer | now stamp | ]; cbn [step] in Hstep.
  - destruct (on_text_changed _); cbn [bind] in Hstep; [|discriminate].
    injection Hstep as <-. exists []. rewrite app_nil_r. split; [reflexivity | cbn; lia].
  - destruct (on_submit now stamp (progress_file w) (app_state w))
      as [[f app']|e] eqn:Hsub; cbn [bind] in Hstep; [|discriminate].
    injection Hstep as <-. cbn [progress_file is_submit].
    unfold on_submit in Hsub.
    destruct (selected_lesson (app_state w)) as [lesson|].
    + destruct (user_started_typing (app_state w)); cbn [negb] in Hsub.
      * destruct (start_time (app_state w)); cbn [bind] in Hsub; [|discriminate].
        rewrite calculate_wpm_and_accuracy_spec in Hsub. cbn [bind] in Hsub.
        destruct (save_progress _ (progress_file w)) as [f1|e] eqn:Hsave;
          cbn [bind] in Hsub; [|discriminate].
        injection Hsub as <- _.
        apply save_progress_usable_inv in Hsave.
        eexists [_]. split; [exact Hsave | cbn; lia].
      * injection Hsub as <- _. exists []. rewrite app_nil_r. split; [reflexivity | cbn; lia].
    + injection Hsub as <- _. exists []. rewrite app_nil_r. split; [reflexivity | cbn; lia].
  - destruct (result_windows (app_state w)).
    + injection Hstep as <-. exists []. rewrite app_nil_r. split; [reflexivity | cbn; lia].
    + destruct (close_results_and_next _); cbn [bind] in Hstep; [|discriminate].
      injection Hstep as <-. exists []. rewrite app_nil_r. split; [reflexivity | cbn; lia].
Qed.

(** Along any session the log only grows at its end: the records it held
    stay at their places, and at most one record is added per submit; keys,
    timers and picks in the dropdown add none. *)
Theorem log_is_append_only (evs : list ui_event) (w w' : world) :
  ui_run evs w = Ok w' ->
  exists added,
    records (progress_file w') = records (progress_file w) ++ added
    /\ (List.length added <= submits evs)%nat.
Proof.
  revert w. induction evs as [|ev evs IH]; intros w Hrun; cbn [ui_run] in Hrun.
  - injection Hrun as <-. exists []. rewrite app_nil_r. split; [reflexivity | cbn; lia].
  - destruct (ui_step ev w) as [w1|e] eqn:Hstep; cbn [bind] in Hrun; [|discriminate].
    destruct (IH w1 Hrun) as (added' & Hrec' & Hlen').
    assert (exists added,
               records (progress_file w1) = records (progress_file w) ++ added
               /\ (List.length added <= if is_submit ev then 1 else 0)%nat)
      as (added & Hrec & Hlen).
    { destruct ev as [ev | selected_str]; cbn [ui_step] in Hstep.
      - now apply step_log.
      - destruct (on_lesson_selected _ _); cbn [bind] in Hstep; [|discriminate].
        injection Hstep as <-. exists []. rewrite app_nil_r. split; [reflexivity | cbn; lia]. }
    exists (added ++ added'). split.
    + now rewrite Hrec', Hrec, app_assoc.
    + rewrite length_app. unfold submits in *. cbn [filter].
      destruct (is_submit ev); cbn [List.length]; lia.
Qed.

Lemma save_progress_succeeds_iff_witness :
  save_progress (sample_record 2) (Parsed {| doc_attempts := Some [sample_record 1] |})
  = Ok (Parsed {| doc_attempts := Some [sample_record 1; sample_record 2] |})
  /\ usable (@Absent progress_doc).
Proof.
  split.
  - apply (proj2 (save_progress_succeeds_iff (sample_record 2)
                    (Parsed {| doc_attempts := Some [sample_record 1] |}) _)).
    split; [exact I | reflexivity].
  - apply (proj1 (save_progress_succeeds_iff (sample_record 1) Absent
                    (Parsed {| doc_attempts := Some [sample_record 1] |}))).
    reflexivity.
Defined.

Lemma log_is_append_only_witness :
  exists w' added,
    ui_run [Engine (Keystroke (Binary64.lit 1000) (str_of "a"));
            Engine (Submit (Binary64.lit 1060) stamp_1);
            LessonSelected (lesson_title lesson_2)]
           {| progress_file := Parsed {| doc_attempts := Some [sample_record 1] |};
              app_state := app_0 |} = Ok w'
    /\ records (progress_file w') = [sample_record 1] ++ added
    /\ (List.length added <= 1)%nat.
Proof.
  eexists.
  assert (ui_run [Engine (Keystroke (Binary64.lit 1000) (str_of "a"));
                  Engine (Submit (Binary64.lit 1060) stamp_1);
                  LessonSelected (lesson_title lesson_2)]
                 {| progress_file := Parsed {| doc_attempts := Some [sample_record 1] |};
                    app_state := app_0 |} = Ok ?[w]) as Hrun
      by (vm_compute; reflexivity).
  destruct (log_is_append_only _ _ _ Hrun) as (added & Hrec & Hlen).
  exists added. split; [exact Hrun|]. split; [exact Hrec | exact Hlen].
Defined.

(** ** The first key starts the clock *)

Lemma step_keystroke (now : Binary64.float) (new_buffer : str) (w : world)
      (lesson : Lesson) :
  selected_lesson (app_state w) = Some lesson ->
  step (Keystroke now new_buffer) w
  = Ok {| progress_file := progress_file w;
          app_state :=
            set_typed_text
              {| buffer := new_buffer;
                 tags := List.map (fun i => (i, tag_for new_buffer (content lesson) i))
                                  (seq 0 (List.length new_buffer)) |}
              (on_key_press now (app_state w)) |}.
Proof.
  intros Hsel. cbn [step].
  assert (selected_lesson (on_key_press now (app_state w)) = Some lesson) as Hsel'.
  { unfold on_key_press. destruct (user_started_typing (app_state w)); exact Hsel. }
  rewrite (on_text_changed_spec _ lesson)
    by (cbn [set_typed_text selected_lesson]; exact Hsel').
  reflexivity.
Qed.

Lemma last_cons_default {A} (l : list A) (a d : A) : last (a :: l) d = last l a.
Proof.
  revert a d. induction l as [|x l IH]; intros a d; [reflexivity|].
  change (last (a :: x :: l) d) with (last (x :: l) d).
  now rewrite !IH.
Qed.

(** In a session that is not started, a run of keystrokes starts it at the
    time of the first one: the later keys leave the start time as it is.  The
    box holds what the last keystroke left, graded against the lesson, and
    nothing is written to the log. *)
Theorem first_keystroke_fixes_start_time (w : world) (first : Binary64.float * str)
        (others : list (Binary64.float * str)) :
  well_formed (app_state w) ->
  user_started_typing (app_state w) = false ->
  exists w',
    run (keystrokes (first :: others)) w = Ok w'
    /\ user_started_typing (app_state w') = true
    /\ start_time (app_state w') = Some (fst first)
    /\ buffer (typed_text (app_state w')) = last (List.map snd others) (snd first)
    /\ selected_lesson (app_state w') = selected_lesson (app_state w)
    /\ progress_file w' = progress_file w.
Proof.
  intros (_ & (lesson & Hsel) & _) Hnot.
  (* after the first key the session is started at its time *)
  rewrite Hsel.
  assert (forall ks w1 b t,
             selected_lesson (app_state w1) = Some lesson ->
             user_started_typing (app_state w1) = true ->
             start_time (app_state w1) = Some t ->
             buffer (typed_text (app_state w1)) = b ->
             exists w',
               run (keystrokes ks) w1 = Ok w'
               /\ user_started_typing (app_state w') = true
               /\ start_time (app_state w') = Some t
               /\ buffer (typed_text (app_state w')) = last (List.map snd ks) b
               /\ selected_lesson (app_state w') = Some lesson
               /\ progress_file w' = progress_file w1) as Hrest.
  { induction ks as [|k ks IH]; intros w1 b t Hs Hst Ht Hb.
    - exists w1. cbn [keystrokes List.map run]. repeat split; assumption.
    - cbn [keystrokes List.map run]. rewrite (step_keystroke _ _ _ lesson Hs).
      cbn [bind].
      match goal with
      | |- context [run _ ?w0] =>
          destruct (IH w0 (snd k) t) as (w' & Hrun & Hst' & Ht' & Hb' & Hs' & Hf')
      end.
      + cbn [app_state set_typed_text selected_lesson]. unfold on_key_press.
        rewrite Hst. exact Hs.
      + cbn [app_state set_typed_text user_started_typing]. unfold on_key_press.
        rewrite Hst. exact Hst.
      + cbn [app_state set_typed_text start_time]. unfold on_key_press.
        rewrite Hst. exact Ht.
      + reflexivity.
      + exists w'. split; [exact Hrun|]. split; [exact Hst'|]. split; [exact Ht'|].
        split; [|split; [exact Hs' | exact Hf']].
        rewrite Hb'. cbn [List.map]. symmetry. apply last_cons_default. }
  cbn [keystrokes List.map run]. rewrite (step_keystroke _ _ _ lesson Hsel).
  cbn [bind].
  match goal with
  | |- context [run _ ?w0] =>
      destruct (Hrest others w0 (snd first) (fst first))
        as (w' & Hrun & Hst' & Ht' & Hb' & Hs' & Hf')
  end.
  - cbn [app_state set_typed_text selected_lesson]. unfold on_key_press.
    rewrite Hnot. exact Hsel.
  - cbn [app_state set_typed_text user_started_typing]. unfold on_key_press.
    rewrite Hnot. reflexivity.
  - cbn [app_state set_typed_text start_time]. unfold on_key_press.
    rewrite Hnot. reflexivity.
  - reflexivity.
  - exists w'. split; [exact Hrun|]. split; [exact Hst'|]. split; [exact Ht'|].
    split; [|split; [exact Hs' | exact Hf']].
    exact Hb'.
Qed.

Lemma first_keystroke_fixes_start_time_witness :
  exists w',
    run (keystrokes [(Binary64.lit 1000, str_of "a"); (Binary64.lit 1001, str_of "ab")])
        {| progress_file := Absent; app_state := app_0 |} = Ok w'
    /\ start_time (app_state w') = Some (Binary64.lit 1000)
    /\ buffer (typed_text (app_state w')) = str_of "ab".
Proof.
  destruct (first_keystroke_fixes_start_time
              {| progress_file := Absent; app_state := app_0 |}
              (Binary64.lit 1000, str_of "a") [(Binary64.lit 1001, str_of "ab")])
    as (w' & Hrun & _ & Ht & Hb & _).
  - apply (TypingApp_init_well_formed two_lessons). vm_compute. reflexivity.
  - reflexivity.
  - exists w'. split; [exact Hrun|]. split; [exact Ht | exact Hb].
Defined.

(** ** Submits and timers *)

Lemma step_submit (now : Binary64.float) (stamp : str) (w : world)
      (lesson : Lesson) (t : Binary64.float) :
  user_started_typing (app_state w) = true ->
  selected_lesson (app_state w) = Some lesson ->
  start_time (app_state w) = Some t ->
  usable (progress_file w) ->
  exists shown,
    step (Submit now stamp) w
    = Ok {| progress_file :=
              Parsed {| doc_attempts :=
                          Some (records (progress_file w)
                                ++ [attempt_of now stamp (app_state w) lesson t]) |};
            app_state :=
              set_windows (result_windows (app_state w) ++ [shown])
                          (finished_windows (app_state w)) (app_state w) |}.
Proof.
  intros Hst Hsel Ht Hf. eexists. cbn [step].
  rewrite (on_submit_started now stamp _ _ lesson t Hst Hsel Ht Hf).
  cbn [bind]. unfold show_results. reflexivity.
Qed.

Lemma step_timer_last (w : world) (x : ResultWindow) (xs : list ResultWindow) :
  result_windows (app_state w) = x :: xs ->
  len (lessons (app_state w)) <= current_lesson_index (app_state w) + 1 ->
  step TimerFires w
  = Ok {| progress_file := progress_file w;
          app_state := set_windows xs (S (finished_windows (app_state w))) (app_state w) |}.
Proof.
  intros Hwin Hlast. cbn [step]. rewrite Hwin.
  rewrite close_results_and_next_last by exact Hlast.
  cbn [bind]. now rewrite Hwin.
Qed.

Lemma step_timer_advances (w : world) (x : ResultWindow) (xs : list ResultWindow) :
  result_windows (app_state w) = x :: xs ->
  0 <= current_lesson_index (app_state w) ->
  current_lesson_index (app_state w) + 1 < len (lessons (app_state w)) ->
  exists lesson,
    nth_error (lessons (app_state w))
              (Z.to_nat (current_lesson_index (app_state w) + 1)) = Some lesson
    /\ step TimerFires w
       = Ok {| progress_file := progress_file w;
               app_state :=
                 {| lessons := lessons (app_state w);
                    current_lesson_index := current_lesson_index (app_state w) + 1;
                    selected_lesson := Some lesson;
                    start_time := None;
                    user_started_typing := false;
                    lesson_dropdown := Some (lesson_id lesson, title lesson);
                    username_entry := username_entry (app_state w);
                    lesson_text_label := content lesson;
                    typed_text := {| buffer := []; tags := [] |};
                    result_windows := xs;
                    finished_windows := finished_windows (app_state w) |} |}.
Proof.
  intros Hwin Hidx Hnext. cbn [step]. rewrite Hwin.
  set (closed := set_windows (tl (result_windows (app_state w)))
                             (finished_windows (app_state w)) (app_state w)).
  destruct (load_lesson_by_index_in_range (current_lesson_index (app_state w) + 1) closed)
    as (lesson & Hn & Hload).
  { cbn [closed set_windows lessons]. lia. }
  exists lesson. split; [exact Hn|].
  unfold close_results_and_next. fold closed.
  cbn [closed set_windows current_lesson_index lessons].
  destruct (Z.ltb_spec (current_lesson_index (app_state w) + 1)
                       (len (lessons (app_state w)))); [|lia].
  fold closed. rewrite Hload. cbn [bind].
  cbn [closed set_windows lessons username_entry result_windows finished_windows].
  now rewrite Hwin.
Qed.

(** On the last lesson the results timer loads nothing, so the session stays
    started: a submit, the timer, and a second submit with no key pressed in
    between store two records of the same lesson, and the completion window
    is shown once. *)
Theorem last_lesson_can_be_submitted_again (w : world) (now1 now2 : Binary64.float)
        (stamp1 stamp2 : str) :
  typing_started (app_state w) ->
  usable (progress_file w) ->
  len (lessons (app_state w)) <= current_lesson_index (app_state w) + 1 ->
  exists r1 r2 w',
    run [Submit now1 stamp1; TimerFires; Submit now2 stamp2] w = Ok w'
    /\ records (progress_file w') = records (progress_file w) ++ [r1; r2]
    /\ timestamp r1 = stamp1 /\ timestamp r2 = stamp2
    /\ lessonId r1 = lessonId r2
    /\ finished_windows (app_state w') = S (finished_windows (app_state w))
    /\ current_lesson_index (app_state w') = current_lesson_index (app_state w).
Proof.
  intros (Hst & (lesson & Hsel) & (t & Ht)) Hf Hlast.
  destruct (step_submit now1 stamp1 w lesson t Hst Hsel Ht Hf) as (shown1 & Hstep1).
  cbn [run]. rewrite Hstep1. cbn [bind].
  match goal with |- context [step TimerFires ?w0] => set (w1 := w0) end.
  assert (exists x xs, result_windows (app_state w1) = x :: xs) as (x & xs & Hwin).
  { cbn [w1 app_state set_windows result_windows].
    destruct (result_windows (app_state w)); cbn [app]; eauto. }
  rewrite (step_timer_last w1 x xs Hwin) by exact Hlast. cbn [bind].
  match goal with |- context [step (Submit _ _) ?w0] => set (w2 := w0) end.
  destruct (step_submit now2 stamp2 w2 lesson t Hst Hsel Ht I) as (shown2 & Hstep2).
  rewrite Hstep2. cbn [bind].
  do 3 eexists. split; [reflexivity|].
  cbn [progress_file app_state records w2 w1 set_windows finished_windows
       current_lesson_index].
  rewrite <- app_assoc. repeat split.
Qed.

Lemma last_lesson_can_be_submitted_again_witness :
  exists r1 r2 w',
    run [Submit (Binary64.lit 1060) stamp_1; TimerFires; Submit (Binary64.lit 1061) stamp_2]
        {| progress_file := Absent; app_state := typing_app [lesson_1] |} = Ok w'
    /\ records (progress_file w') = [r1; r2].
Proof.
  destruct (last_lesson_can_be_submitted_again
              {| progress_file := Absent; app_state := typing_app [lesson_1] |}
              (Binary64.lit 1060) (Binary64.lit 1061) stamp_1 stamp_2)
    as (r1 & r2 & w' & Hrun & Hrec & _).
  - vm_compute. split; [reflexivity|]. split; eexists; reflexivity.
  - exact I.
  - vm_compute. discriminate.
  - exists r1, r2, w'. split; [exact Hrun | exact Hrec].
Defined.

(** Two submits in a row start two timers, and each timer loads the next
    lesson: with two more lessons in the catalog, two submits and then the two
    timers store two records of the current lesson and end two lessons
    further, so the lesson in between is loaded and replaced without a key
    being pressed in it. *)
Theorem double_submit_skips_a_lesson (w : world) (now1 now2 : Binary64.float)
        (stamp1 stamp2 : str) :
  typing_started (app_state w) ->
  usable (progress_file w) ->
  0 <= current_lesson_index (app_state w) ->
  current_lesson_index (app_state w) + 2 < len (lessons (app_state w)) ->
  exists r1 r2 w' skipped,
    run [Submit now1 stamp1; Submit now2 stamp2; TimerFires; TimerFires] w = Ok w'
    /\ records (progress_file w') = records (progress_file w) ++ [r1; r2]
    /\ lessonId r1 = lessonId r2
    /\ nth_error (lessons (app_state w))
                 (Z.to_nat (current_lesson_index (app_state w) + 1)) = Some skipped
    /\ current_lesson_index (app_state w') = current_lesson_index (app_state w) + 2
    /\ nth_error (lessons (app_state w))
                 (Z.to_nat (current_lesson_index (app_state w) + 2))
       = selected_lesson (app_state w')
    /\ user_started_typing (app_state w') = false.
Proof.
  intros (Hst & (lesson & Hsel) & (t & Ht)) Hf Hidx Hnext.
  destruct (step_submit now1 stamp1 w lesson t Hst Hsel Ht Hf) as (shown1 & Hstep1).
  cbn [run]. rewrite Hstep1. cbn [bind].
  match goal with |- context [step (Submit _ _) ?w0] => set (w1 := w0) end.
  destruct (step_submit now2 stamp2 w1 lesson t Hst Hsel Ht I) as (shown2 & Hstep2).
  rewrite Hstep2. cbn [bind].
  match goal with |- context [step TimerFires ?w0] => set (w2 := w0) end.
  assert (exists x y ys, result_windows (app_state w2) = x :: y :: ys)
    as (x & y & ys & Hwin).
  { cbn [w2 w1 app_state set_windows result_windows]. rewrite <- app_assoc. cbn [app].
    destruct (result_windows (app_state w)) as [|a [|b l]]; cbn [app]; eauto. }
  destruct (step_timer_advances w2 x (y :: ys) Hwin) as (skipped & Hn1 & Hstep3).
  { exact Hidx. }
  { cbn [w2 w1 app_state set_windows lessons current_lesson_index]. lia. }
  rewrite Hstep3. cbn [bind].
  match goal with |- context [step TimerFires ?w0] => set (w3 := w0) end.
  destruct (step_timer_advances w3 y ys eq_refl) as (next & Hn2 & Hstep4).
  { cbn [w3 w2 w1 app_state set_windows lessons current_lesson_index]. lia. }
  { cbn [w3 w2 w1 app_state set_windows lessons current_lesson_index]. lia. }
  rewrite Hstep4. cbn [bind].
  do 3 eexists. exists skipped. split; [reflexivity|].
  cbn [progress_file app_state records current_lesson_index selected_lesson
       user_started_typing].
  cbn [w3 w2 w1 app_state progress_file set_windows lessons current_lesson_index records]
    in Hn1, Hn2 |- *.
  rewrite <- app_assoc.
  split; [reflexivity|]. split; [reflexivity|]. split; [exact Hn1|].
  split; [lia|]. split; [|reflexivity].
  rewrite <- Hn2. do 2 f_equal. lia.
Qed.

Lemma double_submit_skips_a_lesson_witness :
  exists w',
    run [Submit (Binary64.lit 1060) stamp_1; Submit (Binary64.lit 1061) stamp_2;
         TimerFires; TimerFires]
        {| progress_file := Absent;
           app_state := typing_app [lesson_1; lesson_2; lesson_3] |} = Ok w'
    /\ List.length (records (progress_file w')) = 2%nat
    /\ selected_lesson (app_state w') = Some lesson_3.
Proof.
  destruct (double_submit_skips_a_lesson
              {| progress_file := Absent;
                 app_state := typing_app [lesson_1; lesson_2; lesson_3] |}
              (Binary64.lit 1060) (Binary64.lit 1061) stamp_1 stamp_2)
    as (r1 & r2 & w' & skipped & Hrun & Hrec & _ & _ & _ & Hsel & _).
  - vm_compute. split; [reflexivity|]. split; eexists; reflexivity.
  - exact I.
  - vm_compute. discriminate.
  - vm_compute. reflexivity.
  - exists w'. split; [exact Hrun|]. split.
    + rewrite Hrec. reflexivity.
    + rewrite <- Hsel. vm_compute. reflexivity.
Defined.

(** ** What a submit records *)

Lemma lstrip_by_spec (p : char -> bool) (s : str) :
  exists removed,
    s = removed ++ lstrip_by p s
    /\ (forall c, In c removed -> p c = true)
    /\ match lstrip_by p s with [] => True | c :: _ => p c = false end.
Proof.
  induction s as [|c s (removed & Hs & Hall & Hhead)].
  - exists []. cbn. auto.
  - cbn [lstrip_by]. destruct (p c) eqn:Hc.
    + exists (c :: removed). cbn [app]. split; [now rewrite <- Hs|].
      split; [|exact Hhead]. intros c' [<- | Hin]; auto.
    + exists []. cbn. auto.
Qed.

Lemma rstrip_by_spec (p : char -> bool) (s : str) :
  exists removed,
    s = rstrip_by p s ++ removed
    /\ (forall c, In c removed -> p c = true)
    /\ match rev (rstrip_by p s) with [] => True | c :: _ => p c = false end.
Proof.
  unfold rstrip_by.
  destruct (lstrip_by_spec p (rev s)) as (removed & Hs & Hall & Hhead).
  exists (rev removed). rewrite rev_involutive. split; [|split].
  - rewrite <- rev_app_distr, <- Hs. symmetry. apply rev_involutive.
  - intros c Hc. apply Hall. now apply in_rev.
  - exact Hhead.
Qed.




Lemma lstrip_by_repeat (p : char -> bool) (c : char) (k : nat) (s : str) :
  p c = true -> lstrip_by p (repeat c k ++ s) = lstrip_by p s.
Proof.
  intros Hc. induction k as [|k IH]; [reflexivity|].
  cbn [repeat app lstrip_by]. now rewrite Hc.
Qed.

Lemma rstrip_newlines_trailing (s : str) (k : nat) :
  rstrip_newlines (s ++ repeat newline k) = rstrip_newlines s.
Proof.
  unfold rstrip_newlines, rstrip_by.
  rewrite rev_app_distr, rev_repeat.
  rewrite lstrip_by_repeat by apply N.eqb_refl. reflexivity.
Qed.

(** Newlines at the end of the typed text do not count: with any number of
    them after the text, a submit stores the same record, and the text that
    is scored never ends with a newline. *)
Theorem submit_ignores_trailing_newlines (now : Binary64.float) (stamp : str)
        (f : file progress_doc) (app : TypingApp) (k : nat) :
  typing_started app ->
  usable f ->
  exists f' app1 app2,
    on_submit now stamp f app = Ok (f', app1)
    /\ on_submit now stamp f
                 (with_buffer (buffer (typed_text app) ++ repeat newline k) app)
       = Ok (f', app2)
    /\ match rev (rstrip_newlines (buffer (typed_text app) ++ [newline])) with
       | [] => True
       | c :: _ => c <> newline
       end.
Proof.
  intros (Hst & (lesson & Hsel) & (t & Ht)) Hf.
  do 3 eexists. split; [apply (on_submit_started now stamp f app lesson t Hst Hsel Ht Hf)|].
  split.
  - rewrite (on_submit_started now stamp f _ lesson t); [|exact Hst|exact Hsel|exact Ht|exact Hf].
    unfold attempt_of, with_buffer.
    cbn [set_typed_text typed_text buffer username_entry].
    assert (rstrip_newlines ((buffer (typed_text app) ++ repeat newline k) ++ [newline])
            = rstrip_newlines (buffer (typed_text app) ++ [newline])) as ->.
    { rewrite <- app_assoc.
      change (repeat newline k ++ [newline]) with (repeat newline k ++ repeat newline 1).
      rewrite <- repeat_app, rstrip_newlines_trailing.
      change [newline] with (repeat newline 1).
      now rewrite rstrip_newlines_trailing. }
    reflexivity.
  - destruct (rstrip_by_spec (fun c => N.eqb c newline)
                             (buffer (typed_text app) ++ [newline]))
      as (removed & _ & _ & Hlast).
    fold (rstrip_newlines (buffer (typed_text app) ++ [newline])) in Hlast.
    destruct (rev (rstrip_newlines (buffer (typed_text app) ++ [newline]))); [exact I|].
    now apply N.eqb_neq.
Qed.

Lemma submit_ignores_trailing_newlines_witness :
  exists f' app1 app2,
    on_submit (Binary64.lit 1060) stamp_1 Absent (typing_app [lesson_1]) = Ok (f', app1)
    /\ on_submit (Binary64.lit 1060) stamp_1 Absent
                 (with_buffer (str_of "a" ++ repeat newline 2) (typing_app [lesson_1]))
       = Ok (f', app2).
Proof.
  destruct (submit_ignores_trailing_newlines (Binary64.lit 1060) stamp_1 Absent
              (typing_app [lesson_1]) 2)
    as (f' & app1 & app2 & H1 & H2 & _).
  - vm_compute. split; [reflexivity|]. split; eexists; reflexivity.
  - exact I.
  - exists f', app1, app2. split; [exact H1 | exact H2].
Defined.

(** ** Start-up and live grading *)

(** On a lessons file with at least one lesson, the application starts with
    these lessons in the order of the file, the dropdown listing them, the
    first one selected and shown, an empty box and no session started: a
    submit before any key is pressed stores nothing. *)
Theorem TypingApp_init_starts_on_first_lesson (first : Lesson) (others : list Lesson) :
  exists app,
    TypingApp_init (Parsed {| doc_lessons := Some (first :: others) |}) = Ok app
    /\ lessons app = first :: others
    /\ lesson_titles app = lesson_title first :: List.map lesson_title others
    /\ current_lesson_index app = 0
    /\ selected_lesson app = Some first
    /\ lesson_text_label app = content first
    /\ typed_text app = {| buffer := []; tags := [] |}
    /\ user_started_typing app = false
    /\ start_time app = None
    /\ result_windows app = []
    /\ forall now stamp f, on_submit now stamp f app = Ok (f, app).
Proof.
  unfold TypingApp_init. cbn [load_lessons read_json try_except bind doc_lessons].
  destruct (load_lesson_by_index_in_range 0 (new_app (first :: others)))
    as (l & Hn & Hload).
  { unfold len. cbn [new_app lessons List.length]. lia. }
  cbn in Hn. injection Hn as <-.
  eexists. split; [exact Hload|].
  unfold lesson_titles.
  cbn [lessons current_lesson_index selected_lesson lesson_text_label typed_text
       user_started_typing start_time result_windows new_app List.map].
  do 9 (split; [reflexivity|]).
  intros now stamp f. now apply on_submit_not_started.
Qed.

(** The live grading starts afresh at each call: the tags it leaves depend on
    the text of the box and on the lesson only, not on the tags that were
    there, grading again changes nothing, and no tag lies beyond the text. *)
Theorem on_text_changed_regrades (app : TypingApp) (lesson : Lesson)
        (stale : list (nat * Tag)) :
  selected_lesson app = Some lesson ->
  exists app',
    on_text_changed app = Ok app'
    /\ on_text_changed (with_tags stale app) = Ok app'
    /\ on_text_changed app' = Ok app'
    /\ forall i t, In (i, t) (tags (typed_text app')) ->
                   (i < List.length (buffer (typed_text app')))%nat.
Proof.
  intros Hsel. eexists.
  split; [apply (on_text_changed_spec app lesson Hsel)|].
  split; [|split].
  - rewrite (on_text_changed_spec (with_tags stale app) lesson) by exact Hsel.
    reflexivity.
  - rewrite (on_text_changed_spec _ lesson) by exact Hsel. reflexivity.
  - cbn [set_typed_text typed_text tags buffer]. intros i t Hin.
    apply in_map_iff in Hin. destruct Hin as (j & [= <- _] & Hj).
    apply in_seq in Hj. lia.
Qed.

Lemma on_text_changed_regrades_witness :
  exists app',
    on_text_changed app_1 = Ok app'
    /\ on_text_changed (with_tags [(5%nat, incorrect)] app_1) = Ok app'.
Proof.
  destruct (on_text_changed_regrades app_1 lesson_1 [(5%nat, incorrect)])
    as (app' & H1 & H2 & _).
  - vm_compute. reflexivity.
  - exists app'. split; [exact H1 | exact H2].
Defined.

(** ** The Return key *)

(** Return submits exactly when the lowest bit of the modifier mask is set
    (Shift): then it does what the Submit button does and keeps the newline
    out of the box; with that bit clear nothing happens and the newline goes
    in.  The other modifier bits make no difference. *)
Theorem on_return_pressed_shift_only (state : Z) (now : Binary64.float) (stamp : str)
        (f : file progress_doc) (app : TypingApp) :
  (Z.odd state = true ->
   on_return_pressed state now stamp f app
   = (' (f', app') <- on_submit now stamp f app ;; Ok (f', app', true)))
  /\ (Z.odd state = false ->
      on_return_pressed state now stamp f app = Ok (f, app, false))
  /\ (forall other, Z.odd other = Z.odd state ->
                    on_return_pressed other now stamp f app
                    = on_return_pressed state now stamp f app).
Proof.
  assert (forall s, Z.land s 1 = if Z.odd s then 1 else 0) as Hbit.
  { intros s. change 1 with (Z.ones 1) at 1. rewrite Z.land_ones by lia.
    change (2 ^ 1) with 2. apply Zmod_odd. }
  unfold on_return_pressed.
  split; [|split].
  - intros Hodd. now rewrite Hbit, Hodd.
  - intros Heven. now rewrite Hbit, Heven.
  - intros other Hsame. now rewrite !Hbit, Hsame.
Qed.

Lemma on_return_pressed_shift_only_witness :
  on_return_pressed 4 (Binary64.lit 1060) stamp_1 Absent app_1 = Ok (Absent, app_1, false)
  /\ exists f' app',
      on_return_pressed 5 (Binary64.lit 1060) stamp_1 Absent app_1 = Ok (f', app', true)
      /\ List.length (records f') = 1%nat.
Proof.
  destruct (on_return_pressed_shift_only 4 (Binary64.lit 1060) stamp_1 Absent app_1)
    as (_ & Hplain & _).
  destruct (on_return_pressed_shift_only 5 (Binary64.lit 1060) stamp_1 Absent app_1)
    as (Hshift & _ & _).
  split; [apply Hplain; reflexivity|].
  rewrite (Hshift eq_refl).
  do 2 eexists. split; [vm_compute; reflexivity | reflexivity].
Defined.
